(** * Fire-hotspot ingestion pipeline (NasaService) -- a shallow embedding

    The development follows [server/services/nasaService.js] (the
    Fetcher, Normalizer, Locality Resolver and Deduplicating Persister),
    the backfill script [fetchAndSaveData] and the daily scheduler of
    [server/index.js].

    Conventions of the embedding:
    - a JavaScript number is a [jsnum]: NaN, the two infinities, or a
      finite value kept as an exact rational (no binary rounding, no
      signed zero);
    - a property read from a JavaScript object is a [prop]:
      [Undefined], [Null] or a string;
    - the network and the database server are explicit: the network is
      an oracle over the history of calls made so far, the database is a
      record of three tables with their sequences. *)

From Stdlib Require Import ZArith QArith List String Ascii Bool Lia.
From Stdlib Require Import Sorted Permutation.
Import ListNotations.

Local Open Scope string_scope.
Local Open Scope Z_scope.

(* ================================================================== *)
(** * JavaScript values used by the service *)
(* ================================================================== *)

Module JS.

(** ** Numbers *)

Inductive jsnum : Type :=
| NaN
| PInf
| NInf
| Fin (q : Q).

Definition isNaN (x : jsnum) : bool :=
  match x with NaN => true | _ => false end.

Definition Qltb (a b : Q) : bool := negb (Qle_bool b a).

(** [a < b] on numbers: every comparison with NaN is false. *)
Definition ltb (a b : jsnum) : bool :=
  match a, b with
  | NaN, _ | _, NaN => false
  | PInf, _ => false
  | _, NInf => false
  | NInf, _ => true
  | _, PInf => true
  | Fin p, Fin q => Qltb p q
  end.

(** [a > b] is [b < a]. *)
Definition gtb (a b : jsnum) : bool := ltb b a.

Definition neg (a : jsnum) : jsnum :=
  match a with
  | NaN => NaN | PInf => NInf | NInf => PInf | Fin q => Fin (- q)
  end.

Definition add (a b : jsnum) : jsnum :=
  match a, b with
  | NaN, _ | _, NaN => NaN
  | PInf, NInf | NInf, PInf => NaN
  | PInf, _ | _, PInf => PInf
  | NInf, _ | _, NInf => NInf
  | Fin p, Fin q => Fin (p + q)
  end.

Definition sub (a b : jsnum) : jsnum := add a (neg b).

Definition Qsign (q : Q) : Z := Z.sgn (Qnum q).

Definition mul (a b : jsnum) : jsnum :=
  match a, b with
  | NaN, _ | _, NaN => NaN
  | Fin p, Fin q => Fin (p * q)
  | Fin p, PInf | PInf, Fin p =>
      match Qsign p with 0 => NaN | Zpos _ => PInf | Zneg _ => NInf end
  | Fin p, NInf | NInf, Fin p =>
      match Qsign p with 0 => NaN | Zpos _ => NInf | Zneg _ => PInf end
  | PInf, PInf | NInf, NInf => PInf
  | PInf, NInf | NInf, PInf => NInf
  end.

(** ** Object properties and truthiness *)

Inductive prop : Type :=
| Undefined
| Null
| Str (s : string).

Definition truthy (v : prop) : bool :=
  match v with
  | Str s => negb (String.eqb s "")
  | _ => false
  end.

(** [a || b] *)
Definition or_else (a b : prop) : prop := if truthy a then a else b.

(** [ToString] of a property value. *)
Definition toString (v : prop) : string :=
  match v with
  | Undefined => "undefined"
  | Null => "null"
  | Str s => s
  end.

(** ** Strings: [trim], [split] *)

(** White space removed by [trim] (the ASCII part of the ECMAScript
    WhiteSpace and LineTerminator sets: TAB, LF, VT, FF, CR, SP). *)
Definition isWhite (c : ascii) : bool :=
  let n := nat_of_ascii c in
  ((9 <=? n) && (n <=? 13))%nat || (n =? 32)%nat.

Fixpoint trimStart (s : string) : string :=
  match s with
  | String c r => if isWhite c then trimStart r else s
  | EmptyString => EmptyString
  end.

Fixpoint trimEnd (s : string) : string :=
  match s with
  | EmptyString => EmptyString
  | String c r =>
      let r' := trimEnd r in
      if isWhite c && String.eqb r' "" then EmptyString else String c r'
  end.

Definition trim (s : string) : string := trimEnd (trimStart s).

(** [s.split(sep)] for a one-character separator: never empty, and
    [("").split(sep)] is the one-element list holding the empty string. *)
Fixpoint split (sep : ascii) (s : string) : list string :=
  match s with
  | EmptyString => [EmptyString]
  | String c r =>
      if Ascii.eqb c sep then EmptyString :: split sep r
      else match split sep r with
           | h :: t => String c h :: t
           | [] => [String c EmptyString]
           end
  end.

Definition LF : ascii := ascii_of_nat 10.

(** ** [parseFloat] and [parseInt] *)

Definition digitOf (radix : Z) (c : ascii) : option Z :=
  let n := Z.of_nat (nat_of_ascii c) in
  let d :=
    if (48 <=? n) && (n <=? 57) then Some (n - 48)
    else if (97 <=? n) && (n <=? 122) then Some (n - 87)
    else if (65 <=? n) && (n <=? 90) then Some (n - 55)
    else None in
  match d with
  | Some v => if v <? radix then Some v else None
  | None => None
  end.

(** Longest prefix of digits of the radix, and what follows it. *)
Fixpoint takeDigits (radix : Z) (s : string) : list Z * string :=
  match s with
  | EmptyString => ([], EmptyString)
  | String c r =>
      match digitOf radix c with
      | Some d => let '(ds, rest) := takeDigits radix r in (d :: ds, rest)
      | None => ([], s)
      end
  end.

Definition valueOfDigits (radix : Z) (ds : list Z) : Z :=
  fold_left (fun acc d => radix * acc + d) ds 0.

(** An optional sign: [true] for a leading minus. *)
Definition takeSign (s : string) : bool * string :=
  match s with
  | String "-" r => (true, r)
  | String "+" r => (false, r)
  | _ => (false, s)
  end.

Fixpoint startsWith (p s : string) : bool :=
  match p, s with
  | EmptyString, _ => true
  | String a p', String b s' => Ascii.eqb a b && startsWith p' s'
  | String _ _, EmptyString => false
  end.

(** [m * 10^e] as an exact rational. *)
Definition scale10 (m e : Z) : Q :=
  if 0 <=? e then inject_Z (m * 10 ^ e)
  else Qmake m (Z.to_pos (10 ^ (- e))).

Definition exponentPart (s : string) : Z :=
  match s with
  | String c r =>
      if Ascii.eqb c "e" || Ascii.eqb c "E" then
        let '(eneg, r') := takeSign r in
        match takeDigits 10 r' with
        | ([], _) => 0
        | (ds, _) => if eneg then - valueOfDigits 10 ds else valueOfDigits 10 ds
        end
      else 0
  | EmptyString => 0
  end.

(** [parseFloat(string)]: leading white space is dropped, then the
    longest prefix that is a StrDecimalLiteral is read; NaN when there is
    none. *)
Definition parseFloat (s : string) : jsnum :=
  let '(isneg, s1) := takeSign (trimStart s) in
  if startsWith "Infinity" s1 then (if isneg then NInf else PInf)
  else
    let '(ip, r1) := takeDigits 10 s1 in
    let '(fp, r2) :=
      match r1 with
      | String "." r => takeDigits 10 r
      | _ => ([], r1)
      end in
    match (ip ++ fp)%list with
    | [] => NaN
    | ds =>
        let m := valueOfDigits 10 ds in
        let e := exponentPart r2 - Z.of_nat (List.length fp) in
        Fin (scale10 (if isneg then - m else m) e)
    end.

(** [parseInt(string)] with no radix argument: radix 16 after a [0x]
    prefix, 10 otherwise; NaN when no digit follows. *)
Definition parseInt (s : string) : jsnum :=
  let '(isneg, s1) := takeSign (trimStart s) in
  let '(radix, s2) :=
    match s1 with
    | String "0" (String c r) =>
        if Ascii.eqb c "x" || Ascii.eqb c "X" then (16, r) else (10, s1)
    | _ => (10, s1)
    end in
  match takeDigits radix s2 with
  | ([], _) => NaN
  | (ds, _) =>
      let m := valueOfDigits radix ds in
      Fin (inject_Z (if isneg then - m else m))
  end.

End JS.

Import JS.

(* ================================================================== *)
(** * Static configuration *)
(* ================================================================== *)

Record bounds : Type := mkBounds {
  north : jsnum;
  south : jsnum;
  west : jsnum;
  east : jsnum
}.

Definition MARANHAO_STATE_BOUNDS : bounds := {|
  north := Fin (Qmake (-2813) 10000);
  south := Fin (Qmake (-104675) 10000);
  west := Fin (Qmake (-474748) 10000);
  east := Fin (Qmake (-411000) 10000)
|}.

Record source : Type := mkSource {
  id : string;
  name : string
}.

Definition SATELLITE_SOURCES : list source := [
  {| id := "VIIRS_SNPP_NRT"; name := "VIIRS SNPP NRT" |};
  {| id := "VIIRS_NOAA20_NRT"; name := "VIIRS NOAA-20 NRT" |};
  {| id := "MODIS_NRT"; name := "MODIS NRT" |};
  {| id := "VIIRS_SNPP_SP"; name := "VIIRS SNPP Standard" |};
  {| id := "VIIRS_NOAA20_SP"; name := "VIIRS NOAA-20 Standard" |};
  {| id := "MODIS_SP"; name := "MODIS Standard" |}
].

(** The test of [reverseGeocode] and of the Normalizer:
    [lat < south || lat > north || lon < west || lon > east]. *)
Definition outOfBounds (lat lon : jsnum) : bool :=
  ltb lat (south MARANHAO_STATE_BOUNDS)
  || gtb lat (north MARANHAO_STATE_BOUNDS)
  || ltb lon (west MARANHAO_STATE_BOUNDS)
  || gtb lon (east MARANHAO_STATE_BOUNDS).

(** [south <= lat <= north] and [west <= lon <= east], on finite values. *)
Definition withinBounds (lat lon : jsnum) : Prop :=
  match lat, lon with
  | Fin p, Fin q =>
      (Qmake (-104675) 10000 <= p)%Q /\ (p <= Qmake (-2813) 10000)%Q /\
      (Qmake (-474748) 10000 <= q)%Q /\ (q <= Qmake (-411000) 10000)%Q
  | _, _ => False
  end.

(** One entry of [data/cities.js], the Locality Index.  The table itself
    is a parameter of the development; its coordinates are finite
    numbers. *)
Record city : Type := mkCity {
  city_name : string;
  city_latitude : Q;
  city_longitude : Q
}.

(* ================================================================== *)
(** * The outside world *)
(* ================================================================== *)

(** One request to the hotspot service:
    [/area/csv/KEY/<source>/<west>,<south>,<east>,<north>/10?begin=..&end=..].
    The two dates are the UTC calendar days of [toISOString().split('T')[0]],
    kept as day numbers since the epoch. *)
Record request : Type := mkRequest {
  req_source : string;
  req_area : bounds;
  req_day_range : Z;
  req_begin : Z;
  req_end : Z
}.

(** What [await fetch(url)] followed by [await response.text()] gives:
    the promise rejects, or a response arrives with [ok] false, or the
    body text of a response with [ok] true. *)
Inductive fetch_outcome : Type :=
| FetchRejected
| FetchNotOk (status : Z)
| FetchText (text : string).

(** The [address] object of a Nominatim answer. *)
Record address : Type := mkAddress {
  addr_city : prop;
  addr_town : prop;
  addr_village : prop;
  addr_hamlet : prop
}.

(** What the Nominatim call gives: a rejected [fetch], a response that is
    not [ok], a body that [response.json()] rejects, or the parsed [data]
    with its [address] ([None] when [data] or [data.address] is falsy). *)
Inductive geo_outcome : Type :=
| GeoRejected
| GeoNotOk (status : Z)
| GeoBadJson
| GeoData (a : option address).

Inductive event : Type :=
| EvFirms (r : request)
| EvNominatim (lat lon : jsnum).

(** The calls made so far, most recent first. *)
Definition history : Type := list event.

Inductive exn : Type :=
| RangeError_invalid_time
| FetchError
| TypeError_rows0_undefined
| DatabaseError.

Inductive result (A : Type) : Type :=
| Ok (a : A)
| Throw (e : exn).
Arguments Ok {A} a.
Arguments Throw {A} e.

(* ================================================================== *)
(** * Locality Resolver *)
(* ================================================================== *)

Record municipalityInfo : Type := mkInfo {
  info_state : string;
  info_municipality : string
}.

Section LocalityResolver.

Variable cities : list city.
(** [String.prototype.toLowerCase]. *)
Variable toLowerCase : string -> string.
(** The reverse-geocoding service, given the calls made before. *)
Variable nominatim : history -> jsnum -> jsnum -> geo_outcome.

(** [dx * dx + dy * dy] for [dx = latitude - city.latitude] and
    [dy = longitude - city.longitude].  The source compares
    [Math.sqrt] of this sum; the square root is strictly increasing on
    non-negative numbers and keeps NaN and Infinity, so the comparison
    [distance < minDistance] is decided on the sums themselves. *)
Definition distanceSq (latitude longitude : jsnum) (c : city) : jsnum :=
  let dx := sub latitude (Fin (city_latitude c)) in
  let dy := sub longitude (Fin (city_longitude c)) in
  add (mul dx dx) (mul dy dy).

(** The loop [for (const city of cities) { ... if (distance < minDistance) ... }]
    from the state [(closestCity, minDistance)]. *)
Fixpoint closestLoop (latitude longitude : jsnum) (cs : list city)
    (closestCity : option city) (minDistance : jsnum) : option city :=
  match cs with
  | [] => closestCity
  | c :: rest =>
      let distance := distanceSq latitude longitude c in
      if ltb distance minDistance
      then closestLoop latitude longitude rest (Some c) distance
      else closestLoop latitude longitude rest closestCity minDistance
  end.

(** [let closestCity = null; let minDistance = Infinity; for ...;
     return closestCity ? {state: 'MA', municipality: closestCity.name} : null]. *)
Definition closestCityInfo (latitude longitude : jsnum) : option municipalityInfo :=
  match closestLoop latitude longitude cities None PInf with
  | Some c => Some {| info_state := "MA"; info_municipality := city_name c |}
  | None => None
  end.

(** [data.address.city || data.address.town || data.address.village ||
     data.address.hamlet]. *)
Definition addressMunicipality (a : address) : prop :=
  or_else (or_else (or_else (addr_city a) (addr_town a)) (addr_village a))
          (addr_hamlet a).

(** [cities.find(city => city.name.toLowerCase() === municipality?.toLowerCase())]:
    an [Undefined] or [Null] municipality gives [undefined] on the right,
    equal to no string. *)
Definition findMatchingCity (municipality : prop) : option city :=
  match municipality with
  | Str m =>
      find (fun c => String.eqb (toLowerCase (city_name c)) (toLowerCase m)) cities
  | _ => None
  end.

(** The primary resolution: [Some] when the answer names an indexed city;
    [None] on every other path, the caught errors included. *)
Definition primaryMatch (g : geo_outcome) : option municipalityInfo :=
  match g with
  | GeoData (Some a) =>
      match findMatchingCity (addressMunicipality a) with
      | Some c => Some {| info_state := "MA"; info_municipality := city_name c |}
      | None => None
      end
  | GeoData None => None
  | GeoRejected | GeoNotOk _ | GeoBadJson => None
  end.

(** [reverseGeocode(latitude, longitude)].  The outer [catch] of the
    method repeats the nearest-city scan; on an index of well-formed
    entries nothing outside the inner [try] throws, so it is not taken. *)
Definition reverseGeocode (latitude longitude : jsnum) (h : history)
    : option municipalityInfo * history :=
  if outOfBounds latitude longitude then (None, h)
  else
    let g := nominatim h latitude longitude in
    let h' := EvNominatim latitude longitude :: h in
    match primaryMatch g with
    | Some info => (Some info, h')
    | None => (closestCityInfo latitude longitude, h')
    end.

End LocalityResolver.

(* ================================================================== *)
(** * Fetcher and Normalizer *)
(* ================================================================== *)

(** The object [fire = {}] filled from one CSV row: the most recent
    assignment to a key is found first. *)
Definition obj : Type := list (string * prop).

Definition setProp (k : string) (v : prop) (o : obj) : obj := (k, v) :: o.

Fixpoint getProp (k : string) (o : obj) : prop :=
  match o with
  | [] => Undefined
  | (k', v) :: rest => if String.eqb k' k then v else getProp k rest
  end.

(** The value of [fire.acquisition_date]: a property read from the row, or
    the [Date] built by [new Date(fire.acq_date)], whose time value is
    [None] for an Invalid Date. *)
Inductive dateprop : Type :=
| DProp (v : prop)
| DDate (t : option Z).

Definition dateTruthy (d : dateprop) : bool :=
  match d with
  | DProp v => truthy v
  | DDate _ => true
  end.

(** A canonical detection, as pushed on [fires]. *)
Record fire : Type := mkFire {
  latitude : jsnum;
  longitude : jsnum;
  acquisition_date : dateprop;
  brightness : jsnum;
  scan : jsnum;
  track : jsnum;
  satellite : string;
  instrument : string;
  confidence : jsnum;
  frp : jsnum;
  daynight : string;
  type_ : string;
  version : string;
  municipality : string;
  state : string
}.

(** Where the body of the row loop ends for one row. *)
Inductive row_outcome : Type :=
| SkipColumns
| SkipNoDate
| SkipDateRange
| SkipNaN
| SkipBounds
| SkipNoMunicipality
| Emit (f : fire).

Definition ms_per_day : Z := 86400000.

(** The UTC calendar day of a time value, [toISOString().split('T')[0]]. *)
Definition isoDay (t : Z) : Z := t / ms_per_day.

Definition safeParseFloat (value : prop) : jsnum :=
  let parsed := parseFloat (toString value) in
  if isNaN parsed then Fin 0%Q else parsed.

Definition safeParseInt (value : prop) : jsnum :=
  let parsed := parseInt (toString value) in
  if isNaN parsed then Fin 0%Q else parsed.

(** [fire.satellite || source.id] and the like: the string kept. *)
Definition strOr (v : prop) (dflt : string) : string :=
  match v with
  | Str s => if String.eqb s "" then dflt else s
  | _ => dflt
  end.

(** [headers.forEach((header, index) =>
       fire[header.trim()] = values[index]?.trim() || null)]. *)
Definition cell (value : string) : prop :=
  let t := trim value in
  if String.eqb t "" then Null else Str t.

Definition buildRow (headers values : list string) : obj :=
  fold_left (fun o hv => setProp (trim (fst hv)) (cell (snd hv)) o)
            (combine headers values) [].

Section Fetcher.

Variable cities : list city.
Variable toLowerCase : string -> string.
Variable nominatim : history -> jsnum -> jsnum -> geo_outcome.
(** The hotspot service, given the calls made before. *)
Variable firms : history -> request -> fetch_outcome.
(** The time value of [new Date(string)]; [None] for an Invalid Date.
    Which strings are accepted beyond the ISO format depends on the
    engine. *)
Variable parseDate : string -> option Z.
(** [ToNumber] on a string, used when a string is compared with a
    [Date]. *)
Variable StringToNumber : string -> jsnum.

(** [fire.acquisition_date < bound] and [fire.acquisition_date > bound]
    for a valid [Date] bound. *)
Definition dateNumber (d : dateprop) : jsnum :=
  match d with
  | DDate (Some t) => Fin (inject_Z t)
  | DDate None => NaN
  | DProp (Str s) => StringToNumber s
  | DProp Null => Fin 0%Q
  | DProp Undefined => NaN
  end.

Definition dateBefore (d : dateprop) (bound : Z) : bool :=
  ltb (dateNumber d) (Fin (inject_Z bound)).

Definition dateAfter (d : dateprop) (bound : Z) : bool :=
  gtb (dateNumber d) (Fin (inject_Z bound)).

(** [if (fire.acq_date) fire.acquisition_date = new Date(fire.acq_date)],
    then the value of [fire.acquisition_date]. *)
Definition rowAcquisition (raw : obj) : dateprop :=
  let acq_date := getProp "acq_date" raw in
  if truthy acq_date then DDate (parseDate (toString acq_date))
  else DProp (getProp "acquisition_date" raw).

(** The body of [for (let i = 1; i < lines.length; i++)] for one line. *)
Definition processRow (src : source) (headers : list string)
    (startDate endDate : Z) (line : string) (h : history)
    : row_outcome * history :=
  let values := split "," line in
  if negb (Nat.eqb (List.length values) (List.length headers))
  then (SkipColumns, h)
  else
    let raw := buildRow headers values in
    let acquisition := rowAcquisition raw in
    if negb (dateTruthy acquisition) then (SkipNoDate, h)
    else if dateBefore acquisition startDate || dateAfter acquisition endDate
    then (SkipDateRange, h)
    else
      let lat := safeParseFloat (getProp "latitude" raw) in
      let lon := safeParseFloat (getProp "longitude" raw) in
      if isNaN lat || isNaN lon then (SkipNaN, h)
      else if outOfBounds lat lon then (SkipBounds, h)
      else
        match reverseGeocode cities toLowerCase nominatim lat lon h with
        | (None, h') => (SkipNoMunicipality, h')
        | (Some info, h') =>
            (Emit {|
               latitude := lat;
               longitude := lon;
               acquisition_date := acquisition;
               brightness := safeParseFloat
                               (or_else (getProp "bright_ti4" raw)
                                        (getProp "brightness" raw));
               scan := safeParseFloat (getProp "scan" raw);
               track := safeParseFloat (getProp "track" raw);
               satellite := strOr (getProp "satellite" raw) (id src);
               instrument := strOr (getProp "instrument" raw)
                                   (hd "" (split "_" (id src)));
               confidence := safeParseInt (getProp "confidence" raw);
               frp := safeParseFloat (getProp "frp" raw);
               daynight := strOr (getProp "daynight" raw) "D";
               type_ := "hotspot";
               version := "1.0";
               municipality := info_municipality info;
               state := info_state info
             |}, h')
        end.

(** The row loop: [fires] grows by the rows emitted, in order. *)
Fixpoint rowsLoop (src : source) (headers : list string)
    (startDate endDate : Z) (rows : list string) (fires : list fire)
    (h : history) : list fire * history :=
  match rows with
  | [] => (fires, h)
  | line :: rest =>
      match processRow src headers startDate endDate line h with
      | (Emit f, h') =>
          rowsLoop src headers startDate endDate rest (fires ++ [f]) h'
      | (_, h') => rowsLoop src headers startDate endDate rest fires h'
      end
  end.

(** [const lines = text.trim().split('\n'); const headers = lines[0].split(',');]
    and the row loop over [lines[1..]]. *)
Definition parseCsv (src : source) (startDate endDate : Z) (text : string)
    (h : history) : list fire * history :=
  let lines := split LF (trim text) in
  let headers := split "," (hd "" lines) in
  rowsLoop src headers startDate endDate (tl lines) [] h.

Definition requestFor (src : source) (startDate endDate : Z) : request := {|
  req_source := id src;
  req_area := MARANHAO_STATE_BOUNDS;
  req_day_range := 10;
  req_begin := isoDay startDate;
  req_end := isoDay endDate
|}.

(** [for (const source of SATELLITE_SOURCES)]: a response that is not
    [ok] goes to the next source; a rejected call leaves the loop with the
    error. *)
Fixpoint sourcesLoop (srcs : list source) (startDate endDate : Z)
    (allFires : list fire) (h : history) : result (list fire) * history :=
  match srcs with
  | [] => (Ok allFires, h)
  | src :: rest =>
      let req := requestFor src startDate endDate in
      let h1 := EvFirms req :: h in
      match firms h req with
      | FetchRejected => (Throw FetchError, h1)
      | FetchNotOk _ => sourcesLoop rest startDate endDate allFires h1
      | FetchText text =>
          let '(fires, h2) := parseCsv src startDate endDate text h1 in
          sourcesLoop rest startDate endDate (allFires ++ fires) h2
      end
  end.

(** [getMaranhaoFireData(startDate, endDate)].  The first statement calls
    [toISOString] on both dates, which throws a RangeError on an Invalid
    Date; the [catch] of the method logs and rethrows. *)
Definition getMaranhaoFireData (startDate endDate : option Z) (h : history)
    : result (list fire) * history :=
  match startDate, endDate with
  | Some s, Some e => sourcesLoop SATELLITE_SOURCES s e [] h
  | _, _ => (Throw RangeError_invalid_time, h)
  end.

(** [fetchAllSatelliteData]: one call of [getMaranhaoFireData] per entry
    of the catalog, each in its own [try]; the two-second pause between
    iterations is not modelled. *)
Fixpoint allSatelliteLoop (srcs : list source) (startDate endDate : option Z)
    (allFires : list fire) (h : history) : list fire * history :=
  match srcs with
  | [] => (allFires, h)
  | _ :: rest =>
      match getMaranhaoFireData startDate endDate h with
      | (Ok fires, h') =>
          allSatelliteLoop rest startDate endDate (allFires ++ fires) h'
      | (Throw _, h') => allSatelliteLoop rest startDate endDate allFires h'
      end
  end.

Definition fetchAllSatelliteData (startDate endDate : option Z) (h : history)
    : list fire * history :=
  allSatelliteLoop SATELLITE_SOURCES startDate endDate [] h.

(** [getValidDateRange()]: the days of ten days ago and of now; the
    Fetcher does not call it. *)
Definition getValidDateRange (now : Z) : Z * Z :=
  (isoDay (now - 10 * ms_per_day), isoDay now).

End Fetcher.

(* ================================================================== *)
(** * The relational store *)
(* ================================================================== *)

(** Rows of [satellite_data], [fire_locations] and [fire_incidents] as
    [initializeTables] declares them.  The [created_at] and [updated_at]
    columns, which no statement of the service sets, are left out. *)
Record satellite_row : Type := mkSatellite {
  sat_id : Z;
  sat_source : string;
  sat_satellite : string;
  sat_instrument : string
}.

Record location_row : Type := mkLocation {
  loc_id : Z;
  loc_latitude : jsnum;
  loc_longitude : jsnum;
  loc_state : string;
  loc_municipality : string
}.

Record incident_row : Type := mkIncident {
  inc_id : Z;
  inc_location_id : Z;
  inc_satellite_id : Z;
  inc_acquisition_date : Z;
  inc_brightness : jsnum;
  inc_scan : jsnum;
  inc_track : jsnum;
  inc_frp : jsnum;
  inc_daynight : string;
  inc_type : string;
  inc_version : string;
  inc_confidence : jsnum
}.

(** The three tables, rows in insertion order, and the last value handed
    out by each [SERIAL] sequence. *)
Record db : Type := mkDb {
  satellite_data : list satellite_row;
  fire_locations : list location_row;
  fire_incidents : list incident_row;
  seq_satellite : Z;
  seq_location : Z;
  seq_incident : Z
}.

(** Equality of two [DECIMAL] values. *)
Definition decimalEq (a b : jsnum) : bool :=
  match a, b with
  | NaN, NaN | PInf, PInf | NInf, NInf => true
  | Fin p, Fin q => Qeq_bool p q
  | _, _ => false
  end.

(** The statements [saveFireData] sends, with their parameters. *)
Inductive stmt : Type :=
| UpsertSatellite (src sat instr : string)
| SelectLocation (lat lon : jsnum)
| InsertLocation (lat lon : jsnum) (st muni : string)
| SelectIncident (location_id : Z) (acq : dateprop) (satellite_id : Z)
| InsertIncident (location_id satellite_id : Z) (f : fire).

Definition sameSatellite (src sat instr : string) (r : satellite_row) : bool :=
  String.eqb (sat_source r) src && String.eqb (sat_satellite r) sat
  && String.eqb (sat_instrument r) instr.

Definition sameCoordinates (lat lon : jsnum) (r : location_row) : bool :=
  decimalEq (loc_latitude r) lat && decimalEq (loc_longitude r) lon.

Definition sameIncident (location_id ts satellite_id : Z) (r : incident_row) : bool :=
  (inc_location_id r =? location_id) && (inc_acquisition_date r =? ts)
  && (inc_satellite_id r =? satellite_id).

(* ================================================================== *)
(** * Deduplicating Persister *)
(* ================================================================== *)

Section Persister.

(** The server refuses a statement whose parameter values do not fit the
    column types (a text longer than its [VARCHAR], a number the column
    cannot hold); the refusal depends on the statement alone and leaves
    the tables and the sequences as they were.  Lost connections are not
    modelled. *)
Variable rejects : stmt -> bool.
(** The [TIMESTAMP] the server reads from the [acquisition_date]
    parameter as the driver sends it; [None] when it reads none. *)
Variable toTimestamp : dateprop -> option Z.

(** [INSERT INTO satellite_data ... ON CONFLICT (source, satellite, instrument)
     DO NOTHING RETURNING id]: the rows returned.  The sequence advances
    before the conflict is seen. *)
Definition upsertSatellite (src sat instr : string) (d : db)
    : result (list Z) * db :=
  if rejects (UpsertSatellite src sat instr) then (Throw DatabaseError, d)
  else
    let newId := seq_satellite d + 1 in
    if existsb (sameSatellite src sat instr) (satellite_data d)
    then (Ok [],
          mkDb (satellite_data d) (fire_locations d) (fire_incidents d)
               newId (seq_location d) (seq_incident d))
    else (Ok [newId],
          mkDb (satellite_data d ++ [mkSatellite newId src sat instr])
               (fire_locations d) (fire_incidents d)
               newId (seq_location d) (seq_incident d)).

(** [SELECT id FROM fire_locations WHERE latitude = $1 AND longitude = $2]. *)
Definition selectLocation (lat lon : jsnum) (d : db) : result (list Z) :=
  if rejects (SelectLocation lat lon) then Throw DatabaseError
  else Ok (map loc_id (filter (sameCoordinates lat lon) (fire_locations d))).

(** [INSERT INTO fire_locations (...) VALUES (...) RETURNING id], under
    [UNIQUE(latitude, longitude)]. *)
Definition insertLocation (lat lon : jsnum) (st muni : string) (d : db)
    : result Z * db :=
  if rejects (InsertLocation lat lon st muni) then (Throw DatabaseError, d)
  else
    let newId := seq_location d + 1 in
    let d' := mkDb (satellite_data d) (fire_locations d) (fire_incidents d)
                   (seq_satellite d) newId (seq_incident d) in
    if existsb (sameCoordinates lat lon) (fire_locations d)
    then (Throw DatabaseError, d')
    else (Ok newId,
          mkDb (satellite_data d)
               (fire_locations d ++ [mkLocation newId lat lon st muni])
               (fire_incidents d)
               (seq_satellite d) newId (seq_incident d)).

(** [SELECT id FROM fire_incidents WHERE location_id = $1 AND
     acquisition_date = $2 AND satellite_id = $3]. *)
Definition selectIncident (location_id : Z) (acq : dateprop) (satellite_id : Z)
    (d : db) : result (list Z) :=
  if rejects (SelectIncident location_id acq satellite_id) then Throw DatabaseError
  else
    match toTimestamp acq with
    | None => Throw DatabaseError
    | Some ts =>
        Ok (map inc_id
              (filter (sameIncident location_id ts satellite_id) (fire_incidents d)))
    end.

(** [INSERT INTO fire_incidents (...) VALUES ($1, ..., $11)], under
    [UNIQUE(location_id, satellite_id, acquisition_date)]. *)
Definition insertIncident (location_id satellite_id : Z) (f : fire) (d : db)
    : result unit * db :=
  if rejects (InsertIncident location_id satellite_id f) then (Throw DatabaseError, d)
  else
    match toTimestamp (acquisition_date f) with
    | None => (Throw DatabaseError, d)
    | Some ts =>
        let newId := seq_incident d + 1 in
        let d' := mkDb (satellite_data d) (fire_locations d) (fire_incidents d)
                       (seq_satellite d) (seq_location d) newId in
        if existsb (sameIncident location_id ts satellite_id) (fire_incidents d)
        then (Throw DatabaseError, d')
        else (Ok tt,
              mkDb (satellite_data d) (fire_locations d)
                   (fire_incidents d ++
                      [mkIncident newId location_id satellite_id ts
                         (brightness f) (scan f) (track f) (frp f)
                         (daynight f) (type_ f) (version f) (confidence f)])
                   (seq_satellite d) (seq_location d) newId)
    end.

(** The location step of the loop body: the id of the stored row with
    these coordinates, or of the row created for them. *)
Definition ensureLocation (f : fire) (d : db) : result Z * db :=
  match selectLocation (latitude f) (longitude f) d with
  | Throw e => (Throw e, d)
  | Ok [] =>
      insertLocation (latitude f) (longitude f)
        (if String.eqb (state f) "" then "MA" else state f)
        (if String.eqb (municipality f) "" then "Unknown" else municipality f)
        d
  | Ok (locationId :: _) => (Ok locationId, d)
  end.

(** The body of [for (const fire of fires)]: an error of any statement is
    caught and the loop goes on with what was written before it. *)
Definition processFire (satelliteId : Z) (f : fire) (d : db) : db :=
  match ensureLocation f d with
  | (Throw _, d1) => d1
  | (Ok locationId, d1) =>
      match selectIncident locationId (acquisition_date f) satelliteId d1 with
      | Throw _ => d1
      | Ok [] => snd (insertIncident locationId satelliteId f d1)
      | Ok (_ :: _) => d1
      end
  end.

Definition saveLoop (satelliteId : Z) (fires : list fire) (d : db) : db :=
  fold_left (fun acc f => processFire satelliteId f acc) fires d.

(** [saveFireData(fires, source)]: the satellite row is written with
    [[source, source, source]], and [satelliteData.rows[0].id] is read
    before the loop; it throws a TypeError when no row came back. *)
Definition saveFireData (fires : list fire) (src : string) (d : db)
    : result Z * db :=
  match upsertSatellite src src src d with
  | (Throw e, d1) => (Throw e, d1)
  | (Ok [], d1) => (Throw TypeError_rows0_undefined, d1)
  | (Ok (satelliteId :: _), d1) =>
      (Ok (Z.of_nat (List.length fires)), saveLoop satelliteId fires d1)
  end.

End Persister.

(* ================================================================== *)
(** * The backfill script *)
(* ================================================================== *)

Section Pipeline.

Variable cities : list city.
Variable toLowerCase : string -> string.
Variable nominatim : history -> jsnum -> jsnum -> geo_outcome.
Variable firms : history -> request -> fetch_outcome.
Variable parseDate : string -> option Z.
Variable StringToNumber : string -> jsnum.
Variable rejects : stmt -> bool.
Variable toTimestamp : dateprop -> option Z.

(** How the script ends: [process.exit(0)], [process.exit(1)], or the
    plain [return] taken when no fire was fetched. *)
Inductive script_end : Type :=
| Exit0
| Exit1
| Returned.

(** One run of fetch, normalize, resolve and persist over a date range. *)
Definition runPipeline (startDate endDate : option Z) (h : history) (d : db)
    : script_end * history * db :=
  match getMaranhaoFireData cities toLowerCase nominatim firms parseDate
          StringToNumber startDate endDate h with
  | (Throw _, h') => (Exit1, h', d)
  | (Ok [], h') => (Returned, h', d)
  | (Ok fires, h') =>
      match saveFireData rejects toTimestamp fires "ALL_SOURCES" d with
      | (Ok _, d') => (Exit0, h', d')
      | (Throw _, d') => (Exit1, h', d')
      end
  end.

(** [fetchAndSaveData()] at the time [now]: the range is the last seven
    days ([setDate(getDate() - 7)], taken as seven times 24 hours). *)
Definition fetchAndSaveData (now : Z) (h : history) (d : db)
    : script_end * history * db :=
  runPipeline (Some (now - 7 * ms_per_day)) (Some now) h d.

End Pipeline.

(* ================================================================== *)
(** * Scheduler *)
(* ================================================================== *)

Module Scheduler.

Section Clock.

(** Local time is UTC plus a constant offset, in milliseconds. *)
Variable tzOffset : Z.

(** How [await weatherService.fetchAndSaveWeatherData()] ends. *)
Inductive cycle_outcome : Type :=
| Resolved
| Rejected.

(** A pending [setTimeout]: when it was armed and its delay. *)
Record timer : Type := mkTimer {
  armed_at : Z;
  delay : Z
}.

(** [nextMidnight.setHours(0, 0, 0, 0)]: the time value of the local
    midnight that starts the day of [now]. *)
Definition startOfLocalDay (now : Z) : Z :=
  now - (now + tzOffset) mod ms_per_day.

(** [if (now > nextMidnight) nextMidnight.setDate(nextMidnight.getDate() + 1)]. *)
Definition nextMidnight (now : Z) : Z :=
  let m := startOfLocalDay now in
  if now >? m then m + ms_per_day else m.

Definition millisecondsUntilMidnight (now : Z) : Z :=
  nextMidnight now - now.

(** [scheduleWeatherUpdate()] called at [now]: one timer is armed. *)
Definition scheduleWeatherUpdate (now : Z) (timers : list timer) : list timer :=
  timers ++ [mkTimer now (millisecondsUntilMidnight now)].

(** The timer callback once the cycle has ended at [now]:
    [try { await cycle; scheduleWeatherUpdate() }
     catch (error) { scheduleWeatherUpdate() }]. *)
Definition afterCycle (o : cycle_outcome) (now : Z) (timers : list timer)
    : list timer :=
  match o with
  | Resolved => scheduleWeatherUpdate now timers
  | Rejected => scheduleWeatherUpdate now timers
  end.

(** The scheduler is idle with its pending timers, or running a cycle
    started by one of them. *)
Inductive sched : Type :=
| Idle (timers : list timer)
| Running (timers : list timer).

(** A timer that is due fires and starts a cycle; a cycle that ends,
    either way, runs the rest of the callback. *)
Inductive step : Z -> sched -> sched -> Prop :=
| step_fire : forall now t before after,
    armed_at t + delay t <= now ->
    step now (Idle (before ++ t :: after)) (Running (before ++ after))
| step_complete : forall now o timers,
    step now (Running timers) (Idle (afterCycle o now timers)).

End Clock.

End Scheduler.

(* ================================================================== *)
(** * Concrete surroundings for the examples *)
(* ================================================================== *)

(** The theorems below hold for every Locality Index, every engine
    function and every behaviour of the network and of the server.  The
    examples run the service in the surroundings of this module. *)
Module Sample.

Definition lowerChar (c : ascii) : ascii :=
  let n := nat_of_ascii c in
  if ((65 <=? n) && (n <=? 90))%nat then ascii_of_nat (n + 32) else c.

Fixpoint lowerAscii (s : string) : string :=
  match s with
  | EmptyString => EmptyString
  | String c r => String (lowerChar c) (lowerAscii r)
  end.

Definition daysFromCivil (y m d : Z) : Z :=
  let y' := if m <=? 2 then y - 1 else y in
  let era := y' / 400 in
  let yoe := y' - era * 400 in
  let mp := if 2 <? m then m - 3 else m + 9 in
  let doy := (153 * mp + 2) / 5 + d - 1 in
  let doe := yoe * 365 + yoe / 4 - yoe / 100 + doy in
  era * 146097 + doe - 719468.

Definition daysInMonth (y m : Z) : Z :=
  if m =? 2 then
    (if ((y mod 4 =? 0) && negb (y mod 100 =? 0)) || (y mod 400 =? 0)
     then 29 else 28)
  else if (m =? 4) || (m =? 6) || (m =? 9) || (m =? 11) then 30 else 31.

(** Reads the calendar-date form [YYYY-MM-DD] as UTC midnight; every
    other string is an Invalid Date here. *)
Definition parseIsoDate (s : string) : option Z :=
  match takeDigits 10 s with
  | ([y1; y2; y3; y4], String "-" r1) =>
      match takeDigits 10 r1 with
      | ([m1; m2], String "-" r2) =>
          match takeDigits 10 r2 with
          | ([d1; d2], EmptyString) =>
              let y := valueOfDigits 10 [y1; y2; y3; y4] in
              let m := valueOfDigits 10 [m1; m2] in
              let d := valueOfDigits 10 [d1; d2] in
              if (1 <=? m) && (m <=? 12) && (1 <=? d) && (d <=? daysInMonth y m)
              then Some (daysFromCivil y m d * ms_per_day)
              else None
          | _ => None
          end
      | _ => None
      end
  | _ => None
  end.

(** No example compares a string with a date. *)
Definition noNumber (s : string) : jsnum := NaN.

Definition cities : list city := [
  mkCity "Imperatriz" (Qmake (-5526) 1000) (Qmake (-47479) 1000);
  mkCity "Caxias" (Qmake (-4865) 1000) (Qmake (-43362) 1000);
  mkCity "Balsas" (Qmake (-7532) 1000) (Qmake (-46037) 1000)
].

(** The geocoder never answers. *)
Definition nominatimDown (h : history) (lat lon : jsnum) : geo_outcome :=
  GeoRejected.


(** Every call of the hotspot service is answered with status 500. *)
Definition firms500 (h : history) (r : request) : fetch_outcome :=
  FetchNotOk 500.

Definition csvHeader : string :=
  "latitude,longitude,bright_ti4,scan,track,acq_date,acq_time,satellite,instrument,confidence,version,bright_ti5,frp,daynight".

Definition goodRow : string :=
  "-5.0,-45.0,330.5,0.39,0.36,2024-01-05,0412,N,VIIRS,n,2.0NRT,290.1,1.2,N".

Definition shortRow : string := "-5.1,-45.2,331.0".

Definition badLatitudeRow : string :=
  "abc,-45.0,330.5,0.39,0.36,2024-01-05,0412,N,VIIRS,n,2.0NRT,290.1,1.2,N".

Definition joinLines (a b : string) : string := a ++ String LF b.

Definition payload : string := joinLines csvHeader (joinLines goodRow shortRow).

Definition jan01 : Z := 19723 * ms_per_day.
Definition jan08 : Z := 19730 * ms_per_day.

(** The first source answers with [payload], the others with status 500. *)
Definition firmsOnce (h : history) (r : request) : fetch_outcome :=
  if String.eqb (req_source r) "VIIRS_SNPP_NRT" then FetchText payload
  else FetchNotOk 500.

Definition acceptAll (s : stmt) : bool := false.

(** A valid [Date] is stored under its time value. *)
Definition timestampOfDate (d : dateprop) : option Z :=
  match d with
  | DDate (Some t) => Some t
  | _ => None
  end.

Definition emptyDb : db := mkDb [] [] [] 0 0 0.

Definition goodFire : fire := {|
  latitude := Fin (Qmake (-50) 10);
  longitude := Fin (Qmake (-450) 10);
  acquisition_date := DDate (Some (19727 * ms_per_day));
  brightness := Fin (Qmake 3305 10);
  scan := Fin (Qmake 39 100);
  track := Fin (Qmake 36 100);
  satellite := "N";
  instrument := "VIIRS";
  confidence := Fin 0%Q;
  frp := Fin (Qmake 12 10);
  daynight := "N";
  type_ := "hotspot";
  version := "1.0";
  municipality := "Caxias";
  state := "MA"
|}.

(** The same place seen one day later. *)
Definition laterFire : fire := {|
  latitude := Fin (Qmake (-50) 10);
  longitude := Fin (Qmake (-450) 10);
  acquisition_date := DDate (Some (19728 * ms_per_day));
  brightness := Fin (Qmake 3411 10);
  scan := Fin (Qmake 39 100);
  track := Fin (Qmake 36 100);
  satellite := "N";
  instrument := "VIIRS";
  confidence := Fin 0%Q;
  frp := Fin (Qmake 21 10);
  daynight := "N";
  type_ := "hotspot";
  version := "1.0";
  municipality := "Caxias";
  state := "MA"
|}.

(** The store after [saveFireData([goodFire], 'ALL_SOURCES')] on the empty
    tables. *)
Definition storeAfterFirstSave : db :=
  mkDb [mkSatellite 1 "ALL_SOURCES" "ALL_SOURCES" "ALL_SOURCES"]
       [mkLocation 1 (Fin (Qmake (-50) 10)) (Fin (Qmake (-450) 10)) "MA" "Caxias"]
       [mkIncident 1 1 1 (19727 * ms_per_day)
          (Fin (Qmake 3305 10)) (Fin (Qmake 39 100)) (Fin (Qmake 36 100))
          (Fin (Qmake 12 10)) "N" "hotspot" "1.0" (Fin 0%Q)]
       1 1 1.

End Sample.

(* ================================================================== *)
(** * Vocabulary of the statements *)
(* ================================================================== *)

(** The text of the row's latitude and longitude, as [parseFloat] gets it. *)
Definition latitudeText (headers : list string) (line : string) : string :=
  toString (getProp "latitude" (buildRow headers (split "," line))).

Definition longitudeText (headers : list string) (line : string) : string :=
  toString (getProp "longitude" (buildRow headers (split "," line))).

(** The squared Euclidean distance, in raw degrees, from the point
    [(p, q)] to the reference coordinate of a city. *)
Definition euclidSq (p q : Q) (c : city) : Q :=
  ((p - city_latitude c) * (p - city_latitude c)
   + (q - city_longitude c) * (q - city_longitude c))%Q.

(** The primary resolution gives nothing: the call was rejected, the
    response was not [ok], its body was not JSON, it carried no address,
    or the place it names is the name of no indexed city. *)
Definition primaryFails (cities : list city) (toLowerCase : string -> string)
    (g : geo_outcome) : Prop :=
  match g with
  | GeoRejected | GeoNotOk _ | GeoBadJson | GeoData None => True
  | GeoData (Some a) =>
      match addressMunicipality a with
      | Str m =>
          forall c, In c cities ->
                    toLowerCase (city_name c) <> toLowerCase m
      | _ => True
      end
  end.

(** Every stored Fire Location lies in the bounding region. *)
Definition locationsWithin (d : db) : Prop :=
  Forall (fun r => withinBounds (loc_latitude r) (loc_longitude r))
         (fire_locations d).

Definition fireWithin (f : fire) : Prop :=
  withinBounds (latitude f) (longitude f).

(** The id of the stored location with the coordinates of a detection:
    the first row the location query returns. *)
Definition locationOf (f : fire) (d : db) : option Z :=
  hd_error (map loc_id
              (filter (sameCoordinates (latitude f) (longitude f))
                      (fire_locations d))).

(** The dedup key (location, sensor, acquisition timestamp) of a
    detection is stored. *)
Definition keyStored (toTimestamp : dateprop -> option Z) (satelliteId : Z)
    (f : fire) (d : db) : Prop :=
  exists locationId ts,
    locationOf f d = Some locationId /\
    toTimestamp (acquisition_date f) = Some ts /\
    existsb (sameIncident locationId ts satelliteId) (fire_incidents d) = true.

(** Nothing is left to write for a detection: its location is stored, and
    its key is stored or its date is one the server reads no timestamp
    from. *)
Definition settled (toTimestamp : dateprop -> option Z) (satelliteId : Z)
    (f : fire) (d : db) : Prop :=
  exists locationId,
    locationOf f d = Some locationId /\
    match toTimestamp (acquisition_date f) with
    | None => True
    | Some ts =>
        existsb (sameIncident locationId ts satelliteId) (fire_incidents d) = true
    end.

(** The tables of [d'] hold the rows of [d], in order, and possibly more
    after them. *)
Definition extends (d d' : db) : Prop :=
  (exists ls, fire_locations d' = (fire_locations d ++ ls)%list) /\
  (exists li, fire_incidents d' = (fire_incidents d ++ li)%list) /\
  satellite_data d' = satellite_data d.

(** The requests sent to the hotspot service, oldest first. *)
Fixpoint requestsOf (h : history) : list request :=
  match h with
  | [] => []
  | EvFirms r :: older => (requestsOf older ++ [r])%list
  | EvNominatim _ _ :: older => requestsOf older
  end.

(** The hotspot service answers every call, with whatever status. *)
Definition neverRejected (firms : history -> request -> fetch_outcome) : Prop :=
  forall h r, firms h r <> FetchRejected.

Section Stores.

Variable cities : list city.
Variable toLowerCase : string -> string.
Variable nominatim : history -> jsnum -> jsnum -> geo_outcome.
Variable firms : history -> request -> fetch_outcome.
Variable parseDate : string -> option Z.
Variable StringToNumber : string -> jsnum.
Variable rejects : stmt -> bool.
Variable toTimestamp : dateprop -> option Z.

(** The stores the pipeline can build: the empty tables, and what a run
    leaves of such a store, at any time, over any range, after any
    history of calls. *)
Inductive populated : db -> Prop :=
| populated_empty : populated (mkDb [] [] [] 0 0 0)
| populated_run : forall d startDate endDate h,
    populated d ->
    populated (snd (runPipeline cities toLowerCase nominatim firms parseDate
                      StringToNumber rejects toTimestamp startDate endDate h d)).

End Stores.

(** What every detection handed on by the Normalizer looks like: the two
    constant fields, the state code, a municipality of the index, text
    fields that are not empty and numbers that are numbers. *)
Definition canonical (cities : list city) (f : fire) : Prop :=
  type_ f = "hotspot" /\ version f = "1.0" /\ state f = "MA" /\
  (exists c, In c cities /\ municipality f = city_name c) /\
  satellite f <> "" /\ instrument f <> "" /\ daynight f <> "" /\
  isNaN (latitude f) = false /\ isNaN (longitude f) = false /\
  isNaN (brightness f) = false /\ isNaN (scan f) = false /\
  isNaN (track f) = false /\ isNaN (confidence f) = false /\
  isNaN (frp f) = false.

(** A detection dated by a valid [Date] lies in the requested range. *)
Definition datedWithin (startDate endDate : Z) (f : fire) : Prop :=
  match acquisition_date f with
  | DDate (Some t) => startDate <= t <= endDate
  | _ => True
  end.

Definition isNominatim (ev : event) : bool :=
  match ev with
  | EvNominatim _ _ => true
  | EvFirms _ => false
  end.

(** The number of reverse-geocoding calls in a history. *)
Definition geocoderCalls (h : history) : nat :=
  List.length (filter isNominatim h).

(** The two services answer a call the same way whatever was called
    before. *)
Definition stateless (firms : history -> request -> fetch_outcome)
    (nominatim : history -> jsnum -> jsnum -> geo_outcome) : Prop :=
  (forall h r, firms h r = firms [] r) /\
  (forall h lat lon, nominatim h lat lon = nominatim [] lat lon).

(* ================================================================== *)
(** * The read query of the service *)
(* ================================================================== *)

(** One row of [fire_incidents fi JOIN fire_locations fl ON
    fi.location_id = fl.id JOIN satellite_data sd ON fi.satellite_id =
    sd.id]; the columns the query selects are columns of the three. *)
Record joined_row : Type := mkJoined {
  row_incident : incident_row;
  row_location : location_row;
  row_satellite : satellite_row
}.

Definition joinIncident (d : db) (i : incident_row) : list joined_row :=
  flat_map
    (fun l =>
       map (fun sd => mkJoined i l sd)
           (filter (fun sd => sat_id sd =? inc_satellite_id i)
                   (satellite_data d)))
    (filter (fun l => loc_id l =? inc_location_id i) (fire_locations d)).

Definition joinedRows (d : db) : list joined_row :=
  flat_map (joinIncident d) (fire_incidents d).

(** [ORDER BY fi.acquisition_date DESC]: the server leaves the order of
    rows of equal date open; here they keep the order they had. *)
Fixpoint insertByDate (r : joined_row) (sorted : list joined_row)
    : list joined_row :=
  match sorted with
  | [] => [r]
  | x :: rest =>
      if inc_acquisition_date (row_incident x)
         <=? inc_acquisition_date (row_incident r)
      then r :: sorted
      else x :: insertByDate r rest
  end.

Definition orderByDateDesc (rows : list joined_row) : list joined_row :=
  fold_right insertByDate [] rows.

Section ReadQuery.

Variable toTimestamp : dateprop -> option Z.
(** [text ILIKE pattern] as the server evaluates it. *)
Variable ilike : string -> string -> bool.
(** [Date.prototype.toISOString] of a time value. *)
Variable toISOString : Z -> string.

(** [if (!startDate) startDate = currentDate], with
    [currentDate = new Date().toISOString().split('T')[0]]. *)
Definition orCurrentDate (now : Z) (date : dateprop) : dateprop :=
  if dateTruthy date then date
  else DProp (Str (hd "" (split "T" (toISOString now)))).

(** The [WHERE] clause of the main query: [fl.state = 'MA'], the two
    bounds on the date and, for a truthy [municipality], the [ILIKE]. *)
Definition selected (a b : Z) (municipality : prop) (r : joined_row) : bool :=
  String.eqb (loc_state (row_location r)) "MA"
  && (a <=? inc_acquisition_date (row_incident r))
  && (inc_acquisition_date (row_incident r) <=? b)
  && (if truthy municipality
      then ilike (loc_municipality (row_location r)) (toString municipality)
      else true).

(** [getFiresFromDatabase(startDate, endDate, municipality)] at the time
    [now]: the two counting queries change nothing; a date parameter the
    server reads no timestamp from fails the query, which the method
    rethrows. *)
Definition getFiresFromDatabase (startDate endDate : dateprop)
    (municipality : prop) (now : Z) (d : db) : result (list joined_row) :=
  let startDate := orCurrentDate now startDate in
  let endDate := orCurrentDate now endDate in
  match toTimestamp startDate, toTimestamp endDate with
  | Some a, Some b =>
      Ok (orderByDateDesc (filter (selected a b municipality) (joinedRows d)))
  | _, _ => Throw DatabaseError
  end.

End ReadQuery.

(* ================================================================== *)
(** * Severity, and the filters of the map *)
(* ================================================================== *)

(** [a <= b] and [a >= b] on numbers: false when either is NaN. *)
Definition leb (a b : jsnum) : bool :=
  negb (isNaN a || isNaN b) && negb (ltb b a).

Definition geb (a b : jsnum) : bool := leb b a.

Inductive severity : Type :=
| Low
| Medium
| High
| Extreme.

(** [calculateSeverity(fire)] of the service. *)
Definition calculateSeverity (f : fire) : severity :=
  if gtb (frp f) (Fin (inject_Z 100)) && gtb (confidence f) (Fin (inject_Z 80))
  then Extreme
  else if gtb (frp f) (Fin (inject_Z 50)) && gtb (confidence f) (Fin (inject_Z 70))
  then High
  else if gtb (frp f) (Fin (inject_Z 20)) && gtb (confidence f) (Fin (inject_Z 60))
  then Medium
  else Low.

Definition severityRank (s : severity) : Z :=
  match s with Low => 0 | Medium => 1 | High => 2 | Extreme => 3 end.

Inductive marker_color : Type :=
| Red
| Orange
| Yellow.

(** The colour of a fire marker on the map:
    [confidence >= 80 ? 'red' : confidence >= 50 ? 'orange' : 'yellow']. *)
Definition markerColor (confidence : jsnum) : marker_color :=
  if geb confidence (Fin (inject_Z 80)) then Red
  else if geb confidence (Fin (inject_Z 50)) then Orange
  else Yellow.

(** The filter of the page and of the map component:
    [latitude >= -10.4675 && latitude <= -0.2813 &&
     longitude >= -47.4748 && longitude <= -41.1000]. *)
Definition shownOnMap (lat lon : jsnum) : bool :=
  geb lat (Fin (Qmake (-104675) 10000))
  && leb lat (Fin (Qmake (-2813) 10000))
  && geb lon (Fin (Qmake (-474748) 10000))
  && leb lon (Fin (Qmake (-411000) 10000)).

(* ================================================================== *)
(** * The city-coordinates lookup of the server *)
(* ================================================================== *)

(** A [Map] from strings: [set] replaces the value of a key that is
    present and adds the key at the end otherwise. *)
Fixpoint mapSet {V : Type} (k : string) (v : V) (m : list (string * V))
    : list (string * V) :=
  match m with
  | [] => [(k, v)]
  | (k', v') :: rest =>
      if String.eqb k' k then (k', v) :: rest else (k', v') :: mapSet k v rest
  end.

Fixpoint mapGet {V : Type} (k : string) (m : list (string * V)) : option V :=
  match m with
  | [] => None
  | (k', v) :: rest => if String.eqb k' k then Some v else mapGet k rest
  end.

Section CityCoordinates.

Variable cities : list city.
Variable toLowerCase : string -> string.

(** [initializeCityCoordinates()]:
    [cities.forEach(city => cityCoordinates.set(city.name.toLowerCase(),
       {latitude: city.latitude, longitude: city.longitude}))]. *)
Definition initializeCityCoordinates : list (string * (Q * Q)) :=
  fold_left
    (fun m c => mapSet (toLowerCase (city_name c))
                       (city_latitude c, city_longitude c) m)
    cities [].

(** The handler of [/api/maranhao/city-coordinates/:cityName]: the
    coordinates, or [None] for the 404 answer. *)
Definition cityCoordinatesOf (cityName : string) : option (Q * Q) :=
  mapGet (toLowerCase cityName) initializeCityCoordinates.

(** [cities.find(c => c.name.toLowerCase() === cityName.toLowerCase())],
    the lookup of [getWeatherForCity]. *)
Definition findCity (cityName : string) : option city :=
  find (fun c => String.eqb (toLowerCase (city_name c)) (toLowerCase cityName))
       cities.

End CityCoordinates.

(** More rows and stores for the examples. *)
Module Cases.

(** A row dated by a text that is no date. *)
Definition undatedRow : string :=
  "-5.0,-45.0,330.5,0.39,0.36,soon,0412,N,VIIRS,n,2.0NRT,290.1,1.2,N".

Definition viirs : source := mkSource "VIIRS_SNPP_NRT" "VIIRS SNPP NRT".

(** The detection of [undatedRow]. *)
Definition undatedFire : fire := {|
  latitude := Fin (Qmake (-50) 10);
  longitude := Fin (Qmake (-450) 10);
  acquisition_date := DDate None;
  brightness := Fin (Qmake 3305 10);
  scan := Fin (Qmake 39 100);
  track := Fin (Qmake 36 100);
  satellite := "N";
  instrument := "VIIRS";
  confidence := Fin 0%Q;
  frp := Fin (Qmake 12 10);
  daynight := "N";
  type_ := "hotspot";
  version := "1.0";
  municipality := "Caxias";
  state := "MA"
|}.

(** The hotspot service that answers every source with the sample
    payload. *)
Definition firmsAlways (h : history) (r : request) : fetch_outcome :=
  FetchText Sample.payload.

End Cases.

(** ** The store as the Persister leaves it *)

(** One change of the store under the satellite id [sat]: sequences move
    forward; a location is appended under the next id when no stored row
    has its coordinates; an incident is appended under the next id, for a
    stored location and [sat], when no stored row has its key. *)
Inductive write (sat : Z) : db -> db -> Prop :=
| write_sequences : forall sats locs incs a b c a' b' c',
    a <= a' -> b <= b' -> c <= c' ->
    write sat (mkDb sats locs incs a b c) (mkDb sats locs incs a' b' c')
| write_location : forall sats locs incs a b c lat lon st muni,
    existsb (sameCoordinates lat lon) locs = false ->
    write sat (mkDb sats locs incs a b c)
      (mkDb sats (locs ++ [mkLocation (b + 1) lat lon st muni]) incs
            a (b + 1) c)
| write_incident : forall sats locs incs a b c l ts br sc tr fr dn ty ve co,
    In l (map loc_id locs) ->
    existsb (sameIncident l ts sat) incs = false ->
    write sat (mkDb sats locs incs a b c)
      (mkDb sats locs
            (incs ++ [mkIncident (c + 1) l sat ts br sc tr fr dn ty ve co])
            a b (c + 1)).

Inductive writes (sat : Z) : db -> db -> Prop :=
| writes_done : forall d, writes sat d d
| writes_step : forall d d1 d2,
    write sat d d1 -> writes sat d1 d2 -> writes sat d d2.

(** Ids are handed out by the sequences: each id is at most the value of
    its sequence, and given once. *)
Definition idsFromSequences (d : db) : Prop :=
  Forall (fun r => sat_id r <= seq_satellite d) (satellite_data d) /\
  Forall (fun r => loc_id r <= seq_location d) (fire_locations d) /\
  Forall (fun r => inc_id r <= seq_incident d) (fire_incidents d) /\
  NoDup (map sat_id (satellite_data d)) /\
  NoDup (map loc_id (fire_locations d)) /\
  NoDup (map inc_id (fire_incidents d)).

(** Every incident refers to a stored location and a stored satellite
    row. *)
Definition referencesResolve (d : db) : Prop :=
  Forall (fun i =>
            In (inc_location_id i) (map loc_id (fire_locations d)) /\
            In (inc_satellite_id i) (map sat_id (satellite_data d)))
         (fire_incidents d).

(** No two rows share what the table declares unique: the (source,
    satellite, instrument) triple, the coordinate pair, the (location,
    satellite, acquisition date) key. *)
Definition keysUnique (d : db) : Prop :=
  ForallOrdPairs
    (fun a b : satellite_row =>
       sameSatellite (sat_source b) (sat_satellite b) (sat_instrument b) a
       = false)
    (satellite_data d) /\
  ForallOrdPairs
    (fun a b : location_row =>
       sameCoordinates (loc_latitude b) (loc_longitude b) a = false)
    (fire_locations d) /\
  ForallOrdPairs
    (fun a b : incident_row =>
       sameIncident (inc_location_id b) (inc_acquisition_date b)
                    (inc_satellite_id b) a = false)
    (fire_incidents d).

(** The rows of [d] are the first rows of [d'], table by table. *)
Definition grows (d d' : db) : Prop :=
  (exists t, satellite_data d' = (satellite_data d ++ t)%list) /\
  (exists t, fire_locations d' = (fire_locations d ++ t)%list) /\
  (exists t, fire_incidents d' = (fire_incidents d ++ t)%list).

Definition wellFormed (d : db) : Prop :=
  idsFromSequences d /\ referencesResolve d /\ keysUnique d.

(** Every stored Fire Location carries the state code MA. *)
Definition locationsInMA (d : db) : Prop :=
  Forall (fun r => loc_state r = "MA") (fire_locations d).

Definition dateOf (r : joined_row) : Z := inc_acquisition_date (row_incident r).

(** Newest first. *)
Definition newestFirst (rows : list joined_row) : Prop :=
  StronglySorted (fun x y => dateOf y <= dateOf x) rows.

(** A row of the join of the stored tables. *)
Definition joinsStored (d : db) (r : joined_row) : Prop :=
  In (row_incident r) (fire_incidents d) /\
  In (row_location r) (fire_locations d) /\
  In (row_satellite r) (satellite_data d) /\
  loc_id (row_location r) = inc_location_id (row_incident r) /\
  sat_id (row_satellite r) = inc_satellite_id (row_incident r).

Definition datedBetween (a b : Z) (i : incident_row) : bool :=
  (a <=? inc_acquisition_date i) && (inc_acquisition_date i <=? b).

(* ================================================================== *)
(** * Properties *)
(* ================================================================== *)

Example parseFloat_ex1 : parseFloat "-5.25" = Fin (Qmake (-525) 100).
Proof. reflexivity. Qed.
Example parseFloat_ex2 : parseFloat " 12abc" = Fin (inject_Z 12).
Proof. reflexivity. Qed.
Example parseFloat_ex3 : parseFloat "null" = NaN.
Proof. reflexivity. Qed.
Example parseFloat_ex4 : parseFloat "1.5e2" = Fin (inject_Z 150).
Proof. reflexivity. Qed.
Example parseFloat_ex5 : parseFloat ".e3" = NaN.
Proof. reflexivity. Qed.
Example parseInt_ex1 : parseInt "0x1f" = Fin (inject_Z 31).
Proof. reflexivity. Qed.
Example parseInt_ex2 : parseInt "n" = NaN.
Proof. reflexivity. Qed.
Example split_ex1 : split "," "a,,b" = ["a"; ""; "b"].
Proof. reflexivity. Qed.
Example split_ex2 : split "," "" = [""].
Proof. reflexivity. Qed.
Example trim_ex1 : trim "  a b  " = "a b".
Proof. reflexivity. Qed.

Example parseIsoDate_ex1 : Sample.parseIsoDate "1970-01-01" = Some 0.
Proof. reflexivity. Qed.
Example parseIsoDate_ex2 :
  Sample.parseIsoDate "2024-01-05" = Some (19727 * ms_per_day).
Proof. reflexivity. Qed.
Example parseIsoDate_ex3 : Sample.parseIsoDate "2024-02-30" = None.
Proof. reflexivity. Qed.

Example processRow_good :
  processRow Sample.cities Sample.lowerAscii Sample.nominatimDown
    Sample.parseIsoDate Sample.noNumber
    (mkSource "VIIRS_SNPP_NRT" "VIIRS SNPP NRT")
    (split "," Sample.csvHeader) Sample.jan01 Sample.jan08 Sample.goodRow []
  = (Emit Sample.goodFire,
     [EvNominatim (Fin (Qmake (-50) 10)) (Fin (Qmake (-450) 10))]).
Proof. vm_compute. reflexivity. Qed.

(* ------------------------------------------------------------------ *)
(** ** Numbers and coercions *)
(* ------------------------------------------------------------------ *)

Lemma safeParseFloat_not_NaN (v : prop) : isNaN (safeParseFloat v) = false.
Proof.
  unfold safeParseFloat.
  destruct (parseFloat (toString v)); reflexivity.
Qed.

Lemma safeParseInt_not_NaN (v : prop) : isNaN (safeParseInt v) = false.
Proof.
  unfold safeParseInt.
  destruct (parseInt (toString v)); reflexivity.
Qed.

Lemma safeParseFloat_default (v : prop) :
  parseFloat (toString v) = NaN -> safeParseFloat v = Fin 0%Q.
Proof. unfold safeParseFloat; intros ->; reflexivity. Qed.

Lemma safeParseInt_default (v : prop) :
  parseInt (toString v) = NaN -> safeParseInt v = Fin 0%Q.
Proof. unfold safeParseInt; intros ->; reflexivity. Qed.

Lemma safeParseFloat_keeps (v : prop) :
  parseFloat (toString v) <> NaN -> safeParseFloat v = parseFloat (toString v).
Proof.
  unfold safeParseFloat.
  destruct (parseFloat (toString v)); simpl; congruence.
Qed.

(** Latitude 0 is north of the region, whatever the longitude. *)
Lemma outOfBounds_latitude_zero (lon : jsnum) : outOfBounds (Fin 0%Q) lon = true.
Proof. reflexivity. Qed.

(** Longitude 0 is east of the region, whatever the latitude. *)
Lemma outOfBounds_longitude_zero (lat : jsnum) : outOfBounds lat (Fin 0%Q) = true.
Proof.
  unfold outOfBounds.
  replace (gtb (Fin 0%Q) (east MARANHAO_STATE_BOUNDS)) with true by reflexivity.
  apply orb_true_r.
Qed.

Lemma Qltb_false_le (a b : Q) : Qltb a b = false -> (b <= a)%Q.
Proof.
  unfold Qltb; intros H.
  apply negb_false_iff in H.
  now apply Qle_bool_iff.
Qed.

Lemma Qltb_true_lt (a b : Q) : Qltb a b = true -> (a < b)%Q.
Proof.
  unfold Qltb; intros H.
  apply negb_true_iff in H.
  apply Qnot_le_lt; intros Hle.
  apply Qle_bool_iff in Hle; congruence.
Qed.

(** A pair of numbers that are not NaN and pass the bounds test lies in
    the region. *)
Lemma outOfBounds_false_within (lat lon : jsnum) :
  isNaN lat = false -> isNaN lon = false ->
  outOfBounds lat lon = false -> withinBounds lat lon.
Proof.
  unfold outOfBounds, gtb; intros Hlat Hlon H.
  apply orb_false_iff in H as [H He].
  apply orb_false_iff in H as [H Hw].
  apply orb_false_iff in H as [Hs Hn].
  destruct lat as [| | |p]; try discriminate;
    destruct lon as [| | |q]; try discriminate.
  simpl in *.
  repeat split; apply Qltb_false_le; assumption.
Qed.

Lemma within_not_outOfBounds (lat lon : jsnum) :
  withinBounds lat lon -> outOfBounds lat lon = false.
Proof.
  destruct lat as [| | |p]; try contradiction;
    destruct lon as [| | |q]; try contradiction.
  intros (Hs & Hn & Hw & He).
  unfold outOfBounds, gtb; simpl; unfold Qltb.
  apply Qle_bool_iff in Hs, Hn, Hw, He.
  rewrite Hs, Hn, Hw, He; reflexivity.
Qed.

(* ------------------------------------------------------------------ *)
(** ** Normalizer: one row *)
(* ------------------------------------------------------------------ *)

Section RowFacts.

Variable cities : list city.
Variable toLowerCase : string -> string.
Variable nominatim : history -> jsnum -> jsnum -> geo_outcome.
Variable parseDate : string -> option Z.
Variable StringToNumber : string -> jsnum.

Local Abbreviation processRow' :=
  (processRow cities toLowerCase nominatim parseDate StringToNumber).
Local Abbreviation rowsLoop' :=
  (rowsLoop cities toLowerCase nominatim parseDate StringToNumber).
Local Abbreviation reverseGeocode' := (reverseGeocode cities toLowerCase nominatim).


(** A row leaves the history alone unless it reaches the geocoder. *)
Lemma processRow_history src headers s e line h :
  snd (processRow' src headers s e line h) = h \/
  exists lat lon, snd (processRow' src headers s e line h) = EvNominatim lat lon :: h.
Proof.
  unfold processRow.
  destruct (negb _); [now left|].
  destruct (negb _); [now left|].
  destruct (_ || _); [now left|].
  destruct (_ || _); [now left|].
  destruct (outOfBounds _ _) eqn:Hb; [now left|].
  unfold reverseGeocode. rewrite Hb.
  right. do 2 eexists.
  destruct (primaryMatch _ _ _); [reflexivity|].
  destruct (closestCityInfo _ _ _); reflexivity.
Qed.

(** What an emitted row went through. *)
Lemma processRow_emit src headers s e line h f h' :
  processRow' src headers s e line h = (Emit f, h') ->
  let raw := buildRow headers (split "," line) in
  List.length (split "," line) = List.length headers /\
  outOfBounds (latitude f) (longitude f) = false /\
  latitude f = safeParseFloat (getProp "latitude" raw) /\
  longitude f = safeParseFloat (getProp "longitude" raw) /\
  exists info,
    reverseGeocode' (latitude f) (longitude f) h = (Some info, h').
Proof.
  unfold processRow.
  destruct (negb (Nat.eqb _ _)) eqn:Hlen; [discriminate|].
  destruct (negb (dateTruthy _)); [discriminate|].
  destruct (_ || _); [discriminate|].
  destruct (_ || _); [discriminate|].
  destruct (outOfBounds _ _) eqn:Hb; [discriminate|].
  destruct (reverseGeocode _ _ _ _ _ _) as [[info|] h1] eqn:Hg; [|discriminate].
  intros H; injection H as <- <-. simpl.
  apply negb_false_iff, Nat.eqb_eq in Hlen.
  repeat split; try assumption.
  exists info; assumption.
Qed.



(** C8: a row that passes the column, date, bounds and locality tests is
    emitted whatever its numeric fields hold; each of brightness, scan,
    track, confidence and frp whose text does not parse is 0 in the
    detection, and none of them is NaN. *)
Theorem C8_unparseable_numeric_defaults_to_zero src headers s e line h info h' :
  let raw := buildRow headers (split "," line) in
  let acquisition := rowAcquisition parseDate raw in
  let lat := safeParseFloat (getProp "latitude" raw) in
  let lon := safeParseFloat (getProp "longitude" raw) in
  List.length (split "," line) = List.length headers ->
  dateTruthy acquisition = true ->
  dateBefore StringToNumber acquisition s = false ->
  dateAfter StringToNumber acquisition e = false ->
  outOfBounds lat lon = false ->
  reverseGeocode' lat lon h = (Some info, h') ->
  exists f,
    processRow' src headers s e line h = (Emit f, h') /\
    (parseFloat (toString (or_else (getProp "bright_ti4" raw)
                                   (getProp "brightness" raw))) = NaN ->
     brightness f = Fin 0%Q) /\
    (parseFloat (toString (getProp "scan" raw)) = NaN -> scan f = Fin 0%Q) /\
    (parseFloat (toString (getProp "track" raw)) = NaN -> track f = Fin 0%Q) /\
    (parseInt (toString (getProp "confidence" raw)) = NaN ->
     confidence f = Fin 0%Q) /\
    (parseFloat (toString (getProp "frp" raw)) = NaN -> frp f = Fin 0%Q) /\
    isNaN (brightness f) = false /\ isNaN (scan f) = false /\
    isNaN (track f) = false /\ isNaN (confidence f) = false /\
    isNaN (frp f) = false.
Proof.
  intros raw acquisition lat lon Hlen Hdate Hbefore Hafter Hbounds Hgeo.
  unfold processRow.
  fold raw. fold acquisition. fold lat. fold lon.
  rewrite Hlen, Nat.eqb_refl. simpl negb. cbv iota.
  rewrite Hdate. simpl negb. cbv iota.
  rewrite Hbefore, Hafter. simpl orb. cbv iota.
  unfold lat at 1, lon at 1. rewrite !safeParseFloat_not_NaN.
  simpl orb. cbv iota.
  fold lat. fold lon. rewrite Hbounds, Hgeo.
  eexists. split; [reflexivity|]. simpl.
  repeat split;
    auto using safeParseFloat_default, safeParseInt_default,
               safeParseFloat_not_NaN, safeParseInt_not_NaN.
Qed.

(** C10: [safeParseFloat] never returns NaN, so no row ends at the
    [isNaN] test; a row whose latitude or longitude text does not parse
    has that coordinate coerced to 0, which the bounds test refuses, so
    the row is not emitted and the geocoder is not called for it. *)
Theorem C10_nan_branch_unreachable src headers s e line h :
  (forall v, isNaN (safeParseFloat v) = false) /\
  fst (processRow' src headers s e line h) <> SkipNaN /\
  (parseFloat (latitudeText headers line) = NaN \/
   parseFloat (longitudeText headers line) = NaN ->
   let raw := buildRow headers (split "," line) in
   (safeParseFloat (getProp "latitude" raw) = Fin 0%Q \/
    safeParseFloat (getProp "longitude" raw) = Fin 0%Q) /\
   outOfBounds (safeParseFloat (getProp "latitude" raw))
               (safeParseFloat (getProp "longitude" raw)) = true /\
   (forall f, fst (processRow' src headers s e line h) <> Emit f) /\
   snd (processRow' src headers s e line h) = h /\
   (forall rest fires,
      rowsLoop' src headers s e (line :: rest) fires h
      = rowsLoop' src headers s e rest fires h)).
Proof.
  split; [exact safeParseFloat_not_NaN|]. split.
  - unfold processRow.
    rewrite !safeParseFloat_not_NaN. simpl orb. cbv iota.
    destruct (negb _); [discriminate|].
    destruct (negb _); [discriminate|].
    destruct (_ || _); [discriminate|].
    destruct (outOfBounds _ _); [discriminate|].
    destruct (reverseGeocode _ _ _ _ _ _) as [[info|] h1]; discriminate.
  - intros Hbad raw. unfold latitudeText, longitudeText in Hbad. fold raw in Hbad.
    assert (Hzero : safeParseFloat (getProp "latitude" raw) = Fin 0%Q \/
                    safeParseFloat (getProp "longitude" raw) = Fin 0%Q).
    { destruct Hbad as [H|H]; [left|right];
        now apply safeParseFloat_default. }
    assert (Hout : outOfBounds (safeParseFloat (getProp "latitude" raw))
                     (safeParseFloat (getProp "longitude" raw)) = true).
    { destruct Hzero as [-> | ->];
        [apply outOfBounds_latitude_zero | apply outOfBounds_longitude_zero]. }
    assert (Hrow : (forall f, fst (processRow' src headers s e line h) <> Emit f)
                   /\ snd (processRow' src headers s e line h) = h).
    { unfold processRow. fold raw.
      destruct (negb (Nat.eqb _ _)); [split; [discriminate|reflexivity]|].
      destruct (negb (dateTruthy _)); [split; [discriminate|reflexivity]|].
      destruct (_ || _); [split; [discriminate|reflexivity]|].
      destruct (_ || _); [split; [discriminate|reflexivity]|].
      rewrite Hout. split; [discriminate|reflexivity]. }
    repeat split; try tauto.
    intros rest fires. simpl.
    destruct Hrow as [Hemit Hh].
    destruct (processRow' src headers s e line h) as [[| | | | | |f] h1];
      simpl in Hh; subst h1; try reflexivity.
    exfalso. now apply (Hemit f).
Qed.

End RowFacts.


(** The whole payload -- header, the well-formed row, the short row --
    gives the one detection. *)
Example parseCsv_payload :
  parseCsv Sample.cities Sample.lowerAscii Sample.nominatimDown
    Sample.parseIsoDate Sample.noNumber
    (mkSource "VIIRS_SNPP_NRT" "VIIRS SNPP NRT")
    Sample.jan01 Sample.jan08 Sample.payload []
  = ([Sample.goodFire],
     [EvNominatim (Fin (Qmake (-50) 10)) (Fin (Qmake (-450) 10))]).
Proof. vm_compute. reflexivity. Qed.

Lemma C8_witness :
  exists f,
    processRow Sample.cities Sample.lowerAscii Sample.nominatimDown
      Sample.parseIsoDate Sample.noNumber
      (mkSource "VIIRS_SNPP_NRT" "VIIRS SNPP NRT")
      (split "," Sample.csvHeader) Sample.jan01 Sample.jan08 Sample.goodRow []
    = (Emit f, [EvNominatim (Fin (Qmake (-50) 10)) (Fin (Qmake (-450) 10))])
    /\ confidence f = Fin 0%Q.
Proof.
  destruct (C8_unparseable_numeric_defaults_to_zero
              Sample.cities Sample.lowerAscii Sample.nominatimDown
              Sample.parseIsoDate Sample.noNumber
              (mkSource "VIIRS_SNPP_NRT" "VIIRS SNPP NRT")
              (split "," Sample.csvHeader) Sample.jan01 Sample.jan08
              Sample.goodRow []
              (mkInfo "MA" "Caxias")
              [EvNominatim (Fin (Qmake (-50) 10)) (Fin (Qmake (-450) 10))])
    as (f & Hf & _ & _ & _ & Hc & _).
  - vm_compute; reflexivity.
  - vm_compute; reflexivity.
  - vm_compute; reflexivity.
  - vm_compute; reflexivity.
  - vm_compute; reflexivity.
  - vm_compute; reflexivity.
  - exists f. split; [exact Hf|]. apply Hc. vm_compute; reflexivity.
Defined.

Lemma C10_witness :
  parseFloat (latitudeText (split "," Sample.csvHeader) Sample.badLatitudeRow)
    = NaN /\
  rowsLoop Sample.cities Sample.lowerAscii Sample.nominatimDown
    Sample.parseIsoDate Sample.noNumber
    (mkSource "VIIRS_SNPP_NRT" "VIIRS SNPP NRT")
    (split "," Sample.csvHeader) Sample.jan01 Sample.jan08
    [Sample.badLatitudeRow] [] []
  = ([], []).
Proof.
  assert (Hbad : parseFloat (latitudeText (split "," Sample.csvHeader)
                               Sample.badLatitudeRow) = NaN)
    by (vm_compute; reflexivity).
  split; [exact Hbad|].
  destruct (C10_nan_branch_unreachable Sample.cities Sample.lowerAscii
              Sample.nominatimDown Sample.parseIsoDate Sample.noNumber
              (mkSource "VIIRS_SNPP_NRT" "VIIRS SNPP NRT")
              (split "," Sample.csvHeader) Sample.jan01 Sample.jan08
              Sample.badLatitudeRow []) as (_ & _ & H).
  destruct (H (or_introl Hbad)) as (_ & _ & _ & _ & Hloop).
  rewrite Hloop. reflexivity.
Defined.

(* ------------------------------------------------------------------ *)
(** ** Locality Resolver *)
(* ------------------------------------------------------------------ *)

Section ResolverFacts.

Variable cities : list city.
Variable toLowerCase : string -> string.
Variable nominatim : history -> jsnum -> jsnum -> geo_outcome.

Lemma find_all_false {A : Type} (f : A -> bool) (l : list A) :
  (forall x, In x l -> f x = false) -> find f l = None.
Proof.
  induction l as [|x l IH]; intros H; simpl; [reflexivity|].
  rewrite (H x) by now left.
  apply IH. intros y Hy. apply H. now right.
Qed.

Lemma primaryFails_no_match (g : geo_outcome) :
  primaryFails cities toLowerCase g ->
  primaryMatch cities toLowerCase g = None.
Proof.
  destruct g as [| | |[a|]]; simpl; try reflexivity.
  unfold findMatchingCity.
  destruct (addressMunicipality a) as [| |m]; try reflexivity.
  intros H.
  rewrite find_all_false; [reflexivity|].
  intros c Hc. apply String.eqb_neq. now apply H.
Qed.

Lemma distanceSq_finite (p q : Q) (c : city) :
  distanceSq (Fin p) (Fin q) c = Fin (euclidSq p q c).
Proof. reflexivity. Qed.




End ResolverFacts.


(** The point (-5.0, -45.0) with no geocoder resolves to Caxias, the
    nearest of the three sample cities. *)
Example reverseGeocode_fallback_example :
  fst (reverseGeocode Sample.cities Sample.lowerAscii Sample.nominatimDown
         (Fin (Qmake (-50) 10)) (Fin (Qmake (-450) 10)) [])
  = Some {| info_state := "MA"; info_municipality := "Caxias" |}.
Proof. vm_compute. reflexivity. Qed.

(* ------------------------------------------------------------------ *)
(** ** Deduplicating Persister *)
(* ------------------------------------------------------------------ *)

Lemma decimalEq_refl (a : jsnum) : decimalEq a a = true.
Proof.
  destruct a as [| | |q]; simpl; try reflexivity.
  apply Qeq_bool_iff. reflexivity.
Qed.

Lemma sameSatellite_refl (s : string) (n : Z) :
  sameSatellite s s s (mkSatellite n s s s) = true.
Proof. unfold sameSatellite; simpl. now rewrite String.eqb_refl. Qed.

Lemma existsb_filter_nonempty {A : Type} (p : A -> bool) (l : list A) :
  existsb p l = true <-> filter p l <> [].
Proof.
  induction l as [|x l IH]; simpl.
  - split; [discriminate | congruence].
  - destruct (p x); simpl; [split; [discriminate | reflexivity] | exact IH].
Qed.

Lemma existsb_filter_empty {A : Type} (p : A -> bool) (l : list A) :
  filter p l = [] -> existsb p l = false.
Proof.
  intros H. destruct (existsb p l) eqn:E; [|reflexivity].
  apply existsb_filter_nonempty in E. contradiction.
Qed.

Lemma extends_refl (d : db) : extends d d.
Proof.
  repeat split; try (exists []; now rewrite app_nil_r).
Qed.

Lemma extends_trans (a b c : db) : extends a b -> extends b c -> extends a c.
Proof.
  intros ([l1 H1] & [i1 H2] & H3) ([l2 H4] & [i2 H5] & H6).
  repeat split.
  - exists (l1 ++ l2)%list. now rewrite H4, H1, app_assoc.
  - exists (i1 ++ i2)%list. now rewrite H5, H2, app_assoc.
  - congruence.
Qed.

Section PersisterFacts.

Variable rejects : stmt -> bool.
Variable toTimestamp : dateprop -> option Z.

Local Abbreviation ensureLocation' := (ensureLocation rejects).
Local Abbreviation processFire' := (processFire rejects toTimestamp).
Local Abbreviation saveLoop' := (saveLoop rejects toTimestamp).
Local Abbreviation saveFireData' := (saveFireData rejects toTimestamp).

(** *** What each statement may change *)

Lemma upsertSatellite_tables src sat instr d :
  fire_locations (snd (upsertSatellite rejects src sat instr d)) = fire_locations d /\
  fire_incidents (snd (upsertSatellite rejects src sat instr d)) = fire_incidents d.
Proof.
  unfold upsertSatellite.
  destruct (rejects _); [now split|].
  destruct (existsb _ _); now split.
Qed.

(** The location step stores at most one row, with the coordinates of the
    detection. *)
Lemma ensureLocation_effect f d :
  let d1 := snd (ensureLocation' f d) in
  fire_incidents d1 = fire_incidents d /\
  satellite_data d1 = satellite_data d /\
  (fire_locations d1 = fire_locations d \/
   exists n st muni,
     fire_locations d1
     = (fire_locations d ++ [mkLocation n (latitude f) (longitude f) st muni])%list).
Proof.
  unfold ensureLocation, selectLocation, insertLocation.
  destruct (rejects (SelectLocation _ _)); simpl; [now auto|].
  destruct (map _ _); simpl; [|now auto].
  destruct (rejects (InsertLocation _ _ _ _)); simpl; [now auto|].
  destruct (existsb _ _); simpl; [now auto|].
  repeat split. right. now eauto.
Qed.

Lemma insertIncident_effect l sat f d :
  let d1 := snd (insertIncident rejects toTimestamp l sat f d) in
  fire_locations d1 = fire_locations d /\
  satellite_data d1 = satellite_data d /\
  exists li, fire_incidents d1 = (fire_incidents d ++ li)%list.
Proof.
  unfold insertIncident.
  destruct (rejects _); simpl.
  { repeat split. exists []. now rewrite app_nil_r. }
  destruct (toTimestamp _); simpl.
  2:{ repeat split. exists []. now rewrite app_nil_r. }
  destruct (existsb _ _); simpl.
  { repeat split. exists []. now rewrite app_nil_r. }
  repeat split. now eauto.
Qed.

(** One detection adds at most one location, with its own coordinates,
    and only appends to the incidents. *)
Lemma processFire_effect sat f d :
  let d1 := processFire' sat f d in
  satellite_data d1 = satellite_data d /\
  (fire_locations d1 = fire_locations d \/
   exists n st muni,
     fire_locations d1
     = (fire_locations d ++ [mkLocation n (latitude f) (longitude f) st muni])%list) /\
  exists li, fire_incidents d1 = (fire_incidents d ++ li)%list.
Proof.
  unfold processFire.
  pose proof (ensureLocation_effect f d) as (Hi & Hs & Hl).
  destruct (ensureLocation' f d) as [[l|err] d1]; simpl in *.
  2:{ repeat split; try assumption. exists []. now rewrite app_nil_r, Hi. }
  destruct (selectIncident _ _ _ _ _ _) as [[|x rows]|err].
  - pose proof (insertIncident_effect l sat f d1) as (Hl2 & Hs2 & [li Hi2]).
    simpl in *. repeat split.
    + congruence.
    + rewrite Hl2. exact Hl.
    + exists li. now rewrite Hi2, Hi.
  - repeat split; try assumption. exists []. now rewrite app_nil_r, Hi.
  - repeat split; try assumption. exists []. now rewrite app_nil_r, Hi.
Qed.

Lemma processFire_extends sat f d : extends d (processFire' sat f d).
Proof.
  pose proof (processFire_effect sat f d) as (Hs & Hl & Hi). simpl in *.
  repeat split; try assumption.
  destruct Hl as [-> | (n & st & muni & ->)].
  - exists []. now rewrite app_nil_r.
  - now eauto.
Qed.

Lemma saveLoop_extends sat fires : forall d, extends d (saveLoop' sat fires d).
Proof.
  unfold saveLoop.
  induction fires as [|f fires IH]; intros d; simpl.
  - apply extends_refl.
  - eapply extends_trans; [apply processFire_extends | apply IH].
Qed.

(** *** The bounding invariant *)

Lemma processFire_within sat f d :
  fireWithin f -> locationsWithin d -> locationsWithin (processFire' sat f d).
Proof.
  intros Hf Hd. unfold locationsWithin.
  pose proof (processFire_effect sat f d) as (_ & Hl & _). simpl in Hl.
  destruct Hl as [-> | (n & st & muni & ->)]; [exact Hd|].
  apply Forall_app. split; [exact Hd|].
  constructor; [exact Hf | constructor].
Qed.

Lemma saveLoop_within sat fires :
  Forall fireWithin fires ->
  forall d, locationsWithin d -> locationsWithin (saveLoop' sat fires d).
Proof.
  unfold saveLoop.
  induction 1 as [|f fires Hf _ IH]; intros d Hd; simpl; [exact Hd|].
  apply IH. now apply processFire_within.
Qed.

Lemma saveFireData_within fires src d :
  Forall fireWithin fires -> locationsWithin d ->
  locationsWithin (snd (saveFireData' fires src d)).
Proof.
  intros Hf Hd. unfold saveFireData.
  pose proof (upsertSatellite_tables src src src d) as [Hl _].
  destruct (upsertSatellite rejects src src src d) as [[[|sat rows]|err] d1];
    simpl in *.
  - unfold locationsWithin. now rewrite Hl.
  - apply saveLoop_within; [exact Hf|]. unfold locationsWithin. now rewrite Hl.
  - unfold locationsWithin. now rewrite Hl.
Qed.

End PersisterFacts.

(* ------------------------------------------------------------------ *)
(** ** Fetcher: what is requested, what is returned *)
(* ------------------------------------------------------------------ *)

Section FetcherFacts.

Variable cities : list city.
Variable toLowerCase : string -> string.
Variable nominatim : history -> jsnum -> jsnum -> geo_outcome.
Variable firms : history -> request -> fetch_outcome.
Variable parseDate : string -> option Z.
Variable StringToNumber : string -> jsnum.

Local Abbreviation processRow' :=
  (processRow cities toLowerCase nominatim parseDate StringToNumber).
Local Abbreviation rowsLoop' :=
  (rowsLoop cities toLowerCase nominatim parseDate StringToNumber).
Local Abbreviation parseCsv' :=
  (parseCsv cities toLowerCase nominatim parseDate StringToNumber).
Local Abbreviation sourcesLoop' :=
  (sourcesLoop cities toLowerCase nominatim firms parseDate StringToNumber).
Local Abbreviation getMaranhaoFireData' :=
  (getMaranhaoFireData cities toLowerCase nominatim firms parseDate
     StringToNumber).
Local Abbreviation fetchAllSatelliteData' :=
  (fetchAllSatelliteData cities toLowerCase nominatim firms parseDate
     StringToNumber).

(** *** Every detection returned lies in the region *)

Lemma processRow_emit_within src headers s e line h f h' :
  processRow' src headers s e line h = (Emit f, h') -> fireWithin f.
Proof.
  intros H.
  apply processRow_emit in H as (_ & Hb & Hlat & Hlon & _).
  apply outOfBounds_false_within; [| |exact Hb].
  - rewrite Hlat. apply safeParseFloat_not_NaN.
  - rewrite Hlon. apply safeParseFloat_not_NaN.
Qed.

Lemma rowsLoop_within src headers s e rows :
  forall fires h,
    Forall fireWithin fires ->
    Forall fireWithin (fst (rowsLoop' src headers s e rows fires h)).
Proof.
  induction rows as [|line rows IH]; intros fires h Hf; simpl; [exact Hf|].
  destruct (processRow' src headers s e line h) as [o h1] eqn:Hrow.
  destruct o; try (now apply IH).
  apply IH. apply Forall_app. split; [exact Hf|].
  constructor; [|constructor].
  eapply processRow_emit_within; exact Hrow.
Qed.

Lemma sourcesLoop_within srcs s e :
  forall allFires h fires h',
    Forall fireWithin allFires ->
    sourcesLoop' srcs s e allFires h = (Ok fires, h') ->
    Forall fireWithin fires.
Proof.
  induction srcs as [|src srcs IH]; intros allFires h fires h' Hall; simpl.
  - intros H; injection H as <- <-. exact Hall.
  - destruct (firms h _) as [|status|text]; [discriminate| |].
    + now apply IH.
    + destruct (parseCsv' src s e text _) as [fs h2] eqn:Hcsv.
      apply IH. apply Forall_app. split; [exact Hall|].
      unfold parseCsv in Hcsv.
      change fs with (fst (fs, h2)). rewrite <- Hcsv.
      apply rowsLoop_within. constructor.
Qed.

Lemma getMaranhaoFireData_within startDate endDate h fires h' :
  getMaranhaoFireData' startDate endDate h = (Ok fires, h') ->
  Forall fireWithin fires.
Proof.
  unfold getMaranhaoFireData.
  destruct startDate as [s|]; [|discriminate].
  destruct endDate as [e|]; [|discriminate].
  apply sourcesLoop_within. constructor.
Qed.

(** *** The requests of one run *)

Lemma rowsLoop_requests src headers s e rows :
  forall fires h,
    requestsOf (snd (rowsLoop' src headers s e rows fires h)) = requestsOf h.
Proof.
  induction rows as [|line rows IH]; intros fires h; simpl; [reflexivity|].
  pose proof (processRow_history cities toLowerCase nominatim parseDate
                StringToNumber src headers s e line h) as Hh.
  destruct (processRow' src headers s e line h) as [o h1]; simpl in Hh.
  assert (Hreq : requestsOf h1 = requestsOf h).
  { destruct Hh as [-> | (lat & lon & ->)]; reflexivity. }
  destruct o; rewrite IH; exact Hreq.
Qed.

(** The loop over the sources asks the first [k] sources, one request
    each, built from the two dates as given; [k] falls short of the
    catalogue only when the result is an error. *)
Lemma sourcesLoop_requests srcs s e :
  forall allFires h,
  exists k,
    (k <= List.length srcs)%nat /\
    (srcs <> [] -> (1 <= k)%nat) /\
    requestsOf (snd (sourcesLoop' srcs s e allFires h))
    = (requestsOf h
       ++ map (fun src => requestFor src s e) (firstn k srcs))%list /\
    ((exists fires, fst (sourcesLoop' srcs s e allFires h) = Ok fires) ->
     k = List.length srcs).
Proof.
  induction srcs as [|src srcs IH]; intros allFires h; simpl.
  - exists 0%nat. simpl. rewrite app_nil_r.
    split; [lia|]. split; [congruence|]. split; reflexivity.
  - destruct (firms h _) as [|status|text].
    + exists 1%nat. simpl.
      split; [lia|]. split; [lia|]. split; [reflexivity|].
      intros [fires Hf]. discriminate.
    + destruct (IH allFires (EvFirms (requestFor src s e) :: h))
        as (k & Hk & _ & Hreq & Hok).
      exists (S k).
      split; [lia|]. split; [lia|]. split.
      * rewrite Hreq. simpl. now rewrite <- app_assoc.
      * intros Hf. now rewrite (Hok Hf).
    + destruct (parseCsv' src s e text _) as [fs h2] eqn:Hcsv.
      assert (Hh2 : requestsOf h2
                    = (requestsOf h ++ [requestFor src s e])%list).
      { change h2 with (snd (fs, h2)). rewrite <- Hcsv.
        unfold parseCsv. now rewrite rowsLoop_requests. }
      destruct (IH (allFires ++ fs)%list h2) as (k & Hk & _ & Hreq & Hok).
      exists (S k).
      split; [lia|]. split; [lia|]. split.
      * rewrite Hreq, Hh2. simpl. now rewrite <- app_assoc.
      * intros Hf. now rewrite (Hok Hf).
Qed.

(** With a service that answers every call the loop reaches the end of
    the catalogue. *)
Lemma sourcesLoop_answered srcs s e :
  neverRejected firms ->
  forall allFires h,
  exists fires, fst (sourcesLoop' srcs s e allFires h) = Ok fires.
Proof.
  intros Hnr.
  induction srcs as [|src srcs IH]; intros allFires h; simpl.
  - now eauto.
  - destruct (firms h _) as [|status|text] eqn:Hf.
    + exfalso. now apply (Hnr _ _ Hf).
    + apply IH.
    + destruct (parseCsv' src s e text _) as [fs h2]. apply IH.
Qed.

End FetcherFacts.

Section FetcherClaims.

Variable cities : list city.
Variable toLowerCase : string -> string.
Variable nominatim : history -> jsnum -> jsnum -> geo_outcome.
Variable firms : history -> request -> fetch_outcome.
Variable parseDate : string -> option Z.
Variable StringToNumber : string -> jsnum.

Local Abbreviation sourcesLoop' :=
  (sourcesLoop cities toLowerCase nominatim firms parseDate StringToNumber).
Local Abbreviation getMaranhaoFireData' :=
  (getMaranhaoFireData cities toLowerCase nominatim firms parseDate
     StringToNumber).
Local Abbreviation allSatelliteLoop' :=
  (allSatelliteLoop cities toLowerCase nominatim firms parseDate
     StringToNumber).
Local Abbreviation fetchAllSatelliteData' :=
  (fetchAllSatelliteData cities toLowerCase nominatim firms parseDate
     StringToNumber).

(** The loop over the sources fails with the fetch error and no other. *)
Lemma sourcesLoop_only_fetch_error srcs s e :
  forall allFires h err,
    fst (sourcesLoop' srcs s e allFires h) = Throw err -> err = FetchError.
Proof.
  induction srcs as [|src srcs IH]; intros allFires h err; simpl.
  - discriminate.
  - destruct (firms h _) as [|status|text].
    + simpl. congruence.
    + apply IH.
    + destruct (parseCsv _ _ _ _ _ _ _ _ _ _) as [fs h2]. apply IH.
Qed.




(** C5, as the code has it: the Fetcher checks no width.  For two valid
    dates, however far apart, the requests of a run carry the window
    segment 10 and the days of the two dates as given; the run fails only
    with the error of a rejected call, and returns when every call is
    answered. *)
Theorem C5_range_sent_unchanged (s e : Z) (h : history) :
  (exists k,
     (1 <= k <= 6)%nat /\
     requestsOf (snd (getMaranhaoFireData' (Some s) (Some e) h))
     = (requestsOf h
        ++ map (fun src =>
                  mkRequest (id src) MARANHAO_STATE_BOUNDS 10 (isoDay s) (isoDay e))
               (firstn k SATELLITE_SOURCES))%list) /\
  (forall err,
     fst (getMaranhaoFireData' (Some s) (Some e) h) = Throw err ->
     err = FetchError) /\
  (neverRejected firms ->
   exists fires, fst (getMaranhaoFireData' (Some s) (Some e) h) = Ok fires).
Proof.
  unfold getMaranhaoFireData. split; [|split].
  - destruct (sourcesLoop_requests cities toLowerCase nominatim firms parseDate
                StringToNumber SATELLITE_SOURCES s e [] h)
      as (k & Hk & Hk1 & Hreq & _).
    exists k. split.
    + split; [apply Hk1; discriminate | exact Hk].
    + exact Hreq.
  - apply sourcesLoop_only_fetch_error.
  - intros Hnr. now apply sourcesLoop_answered.
Qed.

End FetcherClaims.



Lemma C5_witness :
  exists fires,
    fst (getMaranhaoFireData Sample.cities Sample.lowerAscii
           Sample.nominatimDown Sample.firms500 Sample.parseIsoDate
           Sample.noNumber (Some 0) (Some (30 * ms_per_day)) [])
    = Ok fires.
Proof.
  apply (C5_range_sent_unchanged Sample.cities Sample.lowerAscii
           Sample.nominatimDown Sample.firms500 Sample.parseIsoDate
           Sample.noNumber 0 (30 * ms_per_day) []).
  intros h r. discriminate.
Defined.

(** A range of thirty days is neither refused nor cut: the run returns,
    and each of its six requests asks for day 0 to day 30. *)
Lemma C5_counterexample :
  10 < isoDay (30 * ms_per_day) - isoDay 0 /\
  getValidDateRange (30 * ms_per_day) = (20, 30) /\
  fst (getMaranhaoFireData Sample.cities Sample.lowerAscii
         Sample.nominatimDown Sample.firms500 Sample.parseIsoDate
         Sample.noNumber (Some 0) (Some (30 * ms_per_day)) [])
  = Ok [] /\
  requestsOf
    (snd (getMaranhaoFireData Sample.cities Sample.lowerAscii
            Sample.nominatimDown Sample.firms500 Sample.parseIsoDate
            Sample.noNumber (Some 0) (Some (30 * ms_per_day)) []))
  = map (fun src => mkRequest (id src) MARANHAO_STATE_BOUNDS 10 0 30)
        SATELLITE_SOURCES.
Proof. vm_compute. repeat split; reflexivity. Qed.

(* ------------------------------------------------------------------ *)
(** ** The pipeline keeps every stored location in the region *)
(* ------------------------------------------------------------------ *)

Section PipelineFacts.

Variable cities : list city.
Variable toLowerCase : string -> string.
Variable nominatim : history -> jsnum -> jsnum -> geo_outcome.
Variable firms : history -> request -> fetch_outcome.
Variable parseDate : string -> option Z.
Variable StringToNumber : string -> jsnum.
Variable rejects : stmt -> bool.
Variable toTimestamp : dateprop -> option Z.

Local Abbreviation getMaranhaoFireData' :=
  (getMaranhaoFireData cities toLowerCase nominatim firms parseDate
     StringToNumber).
Local Abbreviation runPipeline' :=
  (runPipeline cities toLowerCase nominatim firms parseDate StringToNumber
     rejects toTimestamp).
Local Abbreviation fetchAndSaveData' :=
  (fetchAndSaveData cities toLowerCase nominatim firms parseDate StringToNumber
     rejects toTimestamp).

Lemma runPipeline_within (startDate endDate : option Z) (h : history) (d : db) :
  locationsWithin d ->
  locationsWithin (snd (runPipeline' startDate endDate h d)).
Proof.
  intros Hd. unfold runPipeline.
  destruct (getMaranhaoFireData' startDate endDate h) as [[fires|err] h1] eqn:Hget;
    [|exact Hd].
  destruct fires as [|f fires]; [exact Hd|].
  apply getMaranhaoFireData_within in Hget.
  pose proof (saveFireData_within rejects toTimestamp (f :: fires)
                "ALL_SOURCES" d Hget Hd) as Hsave.
  destruct (saveFireData rejects toTimestamp (f :: fires) "ALL_SOURCES" d)
    as [[n|err] d1]; exact Hsave.
Qed.

(** C6: every Fire Location of a store built by the pipeline has
    south <= latitude <= north and west <= longitude <= east; a run of the
    pipeline keeps this of any store that has it, because the Normalizer
    hands only in-region detections to the Persister. *)
Theorem C6_locations_within_bounds (d : db) :
  populated cities toLowerCase nominatim firms parseDate StringToNumber
            rejects toTimestamp d ->
  locationsWithin d /\
  (forall startDate endDate h,
     locationsWithin (snd (runPipeline' startDate endDate h d))) /\
  (forall now h, locationsWithin (snd (fetchAndSaveData' now h d))) /\
  (forall startDate endDate h fires h',
     getMaranhaoFireData' startDate endDate h = (Ok fires, h') ->
     Forall fireWithin fires).
Proof.
  intros Hpop.
  assert (Hd : locationsWithin d).
  { induction Hpop as [|d0 a b h0 _ IH].
    - constructor.
    - now apply runPipeline_within. }
  split; [exact Hd|]. split; [|split].
  - intros a b h. now apply runPipeline_within.
  - intros now h. now apply runPipeline_within.
  - intros a b h fires h'. apply getMaranhaoFireData_within.
Qed.

End PipelineFacts.

(** The sample run: one detection fetched, one location and one incident
    stored. *)
Example fetchAndSaveData_sample :
  fetchAndSaveData Sample.cities Sample.lowerAscii Sample.nominatimDown
    Sample.firmsOnce Sample.parseIsoDate Sample.noNumber Sample.acceptAll
    Sample.timestampOfDate Sample.jan08 [] Sample.emptyDb
  = (Exit0,
     snd (getMaranhaoFireData Sample.cities Sample.lowerAscii
            Sample.nominatimDown Sample.firmsOnce Sample.parseIsoDate
            Sample.noNumber (Some Sample.jan01) (Some Sample.jan08) []),
     mkDb [mkSatellite 1 "ALL_SOURCES" "ALL_SOURCES" "ALL_SOURCES"]
          [mkLocation 1 (Fin (Qmake (-50) 10)) (Fin (Qmake (-450) 10))
             "MA" "Caxias"]
          [mkIncident 1 1 1 (19727 * ms_per_day)
             (Fin (Qmake 3305 10)) (Fin (Qmake 39 100)) (Fin (Qmake 36 100))
             (Fin (Qmake 12 10)) "N" "hotspot" "1.0" (Fin 0%Q)]
          1 1 1).
Proof. vm_compute. reflexivity. Qed.

Lemma C6_witness :
  locationsWithin
    (snd (fetchAndSaveData Sample.cities Sample.lowerAscii Sample.nominatimDown
            Sample.firmsOnce Sample.parseIsoDate Sample.noNumber
            Sample.acceptAll Sample.timestampOfDate Sample.jan08 []
            Sample.emptyDb)).
Proof.
  apply (C6_locations_within_bounds Sample.cities Sample.lowerAscii
           Sample.nominatimDown Sample.firmsOnce Sample.parseIsoDate
           Sample.noNumber Sample.acceptAll Sample.timestampOfDate
           (snd (fetchAndSaveData Sample.cities Sample.lowerAscii
                   Sample.nominatimDown Sample.firmsOnce Sample.parseIsoDate
                   Sample.noNumber Sample.acceptAll Sample.timestampOfDate
                   Sample.jan08 [] Sample.emptyDb))).
  unfold fetchAndSaveData.
  apply populated_run. apply populated_empty.
Defined.

(* ------------------------------------------------------------------ *)
(** ** Persister: the satellite row and the dedup key *)
(* ------------------------------------------------------------------ *)

Lemma hd_error_app_some {A : Type} (l l' : list A) (x : A) :
  hd_error l = Some x -> hd_error (l ++ l')%list = Some x.
Proof. destruct l; simpl; [discriminate | auto]. Qed.

Lemma sameIncident_refl (l ts sat n : Z) b s t fr dn ty v c :
  sameIncident l ts sat (mkIncident n l sat ts b s t fr dn ty v c) = true.
Proof. unfold sameIncident; simpl. now rewrite !Z.eqb_refl. Qed.

Lemma locationOf_extends (f : fire) (d d' : db) (l : Z) :
  extends d d' -> locationOf f d = Some l -> locationOf f d' = Some l.
Proof.
  intros ([ls Hl] & _ & _). unfold locationOf.
  rewrite Hl, filter_app, map_app. apply hd_error_app_some.
Qed.

Lemma existsb_incident_extends (p : incident_row -> bool) (d d' : db) :
  extends d d' ->
  existsb p (fire_incidents d) = true -> existsb p (fire_incidents d') = true.
Proof.
  intros (_ & [li Hi] & _) H. rewrite Hi, existsb_app, H. reflexivity.
Qed.

Section PersisterClaims.

Variable rejects : stmt -> bool.
Variable toTimestamp : dateprop -> option Z.

Local Abbreviation processFire' := (processFire rejects toTimestamp).
Local Abbreviation saveLoop' := (saveLoop rejects toTimestamp).
Local Abbreviation saveFireData' := (saveFireData rejects toTimestamp).

(** *** The satellite row *)

Lemma saveLoop_satellite_data sat fires d :
  satellite_data (saveLoop' sat fires d) = satellite_data d.
Proof. apply (saveLoop_extends rejects toTimestamp sat fires d). Qed.

(** After the first statement was accepted, the triple is stored. *)
Lemma upsertSatellite_stores src d :
  rejects (UpsertSatellite src src src) = false ->
  existsb (sameSatellite src src src)
          (satellite_data (snd (upsertSatellite rejects src src src d))) = true.
Proof.
  intros Hacc. unfold upsertSatellite. rewrite Hacc.
  destruct (existsb _ (satellite_data d)) eqn:E; simpl; [exact E|].
  rewrite existsb_app. simpl. rewrite sameSatellite_refl.
  now rewrite orb_true_r.
Qed.

(** With the triple stored, the statement returns no row, the read of
    [rows[0].id] throws, and only the sequence has moved. *)
Lemma saveFireData_stored_triple fires src d :
  rejects (UpsertSatellite src src src) = false ->
  existsb (sameSatellite src src src) (satellite_data d) = true ->
  saveFireData' fires src d
  = (Throw TypeError_rows0_undefined,
     mkDb (satellite_data d) (fire_locations d) (fire_incidents d)
          (seq_satellite d + 1) (seq_location d) (seq_incident d)).
Proof.
  intros Hacc Hex. unfold saveFireData, upsertSatellite.
  rewrite Hacc, Hex. reflexivity.
Qed.

(** A call that follows a call with the same label throws and writes no
    location and no incident. *)
Lemma saveFireData_again fires fires' src d :
  let d1 := snd (saveFireData' fires src d) in
  (exists err, fst (saveFireData' fires' src d1) = Throw err) /\
  fire_locations (snd (saveFireData' fires' src d1)) = fire_locations d1 /\
  fire_incidents (snd (saveFireData' fires' src d1)) = fire_incidents d1.
Proof.
  intros d1.
  destruct (rejects (UpsertSatellite src src src)) eqn:Hacc.
  - assert (Hrej : forall fs d0, saveFireData' fs src d0 = (Throw DatabaseError, d0)).
    { intros fs d0. unfold saveFireData, upsertSatellite. now rewrite Hacc. }
    rewrite Hrej. simpl. now eauto.
  - assert (Hex : existsb (sameSatellite src src src) (satellite_data d1) = true).
    { subst d1. unfold saveFireData.
      pose proof (upsertSatellite_stores src d Hacc) as Hst.
      destruct (upsertSatellite rejects src src src d) as [[[|sat rows]|err] d0];
        simpl in *; try exact Hst.
      now rewrite saveLoop_satellite_data. }
    rewrite (saveFireData_stored_triple fires' src d1 Hacc Hex). simpl.
    now eauto.
Qed.

(** *** One detection whose key is stored *)

Lemma keyStored_settled sat f d :
  keyStored toTimestamp sat f d -> settled toTimestamp sat f d.
Proof.
  intros (l & ts & Hl & Hts & Hex). exists l. now rewrite Hts.
Qed.

(** The loop body writes nothing for a settled detection. *)
Lemma processFire_settled sat f d :
  settled toTimestamp sat f d -> processFire' sat f d = d.
Proof.
  intros (l & Hl & Hinc).
  unfold processFire, ensureLocation, selectLocation.
  destruct (rejects (SelectLocation _ _)); [reflexivity|].
  unfold locationOf in Hl.
  destruct (map loc_id _) as [|l0 rest]; [discriminate|].
  injection Hl as ->.
  unfold selectIncident.
  destruct (rejects (SelectIncident _ _ _)); [reflexivity|].
  destruct (toTimestamp (acquisition_date f)) as [ts|]; [|reflexivity].
  apply existsb_filter_nonempty in Hinc.
  destruct (filter _ (fire_incidents d)); [congruence|reflexivity].
Qed.

Lemma settled_extends sat f d d' :
  extends d d' -> settled toTimestamp sat f d -> settled toTimestamp sat f d'.
Proof.
  intros Hext (l & Hl & Hinc). exists l. split.
  - eapply locationOf_extends; eassumption.
  - destruct (toTimestamp (acquisition_date f)); [|exact I].
    eapply existsb_incident_extends; eassumption.
Qed.

(** *** A second pass of the loop *)

Hypothesis accepted : forall st, rejects st = false.

(** The incident step settles a detection whose location is stored. *)
Lemma incidentStep_settles sat f d l :
  locationOf f d = Some l ->
  settled toTimestamp sat f
    match selectIncident rejects toTimestamp l (acquisition_date f) sat d with
    | Throw _ => d
    | Ok [] => snd (insertIncident rejects toTimestamp l sat f d)
    | Ok (_ :: _) => d
    end.
Proof.
  intros Hl. unfold selectIncident, insertIncident. rewrite !accepted.
  destruct (toTimestamp (acquisition_date f)) as [ts|] eqn:Hts.
  2:{ exists l. now rewrite Hts. }
  destruct (filter (sameIncident l ts sat) (fire_incidents d)) as [|r rows] eqn:Hf;
    simpl.
  - rewrite (existsb_filter_empty _ _ Hf). simpl.
    exists l. split; [exact Hl|]. rewrite Hts. simpl.
    rewrite existsb_app. simpl. rewrite sameIncident_refl.
    now rewrite orb_true_r.
  - exists l. split; [exact Hl|]. rewrite Hts.
    apply existsb_filter_nonempty. now rewrite Hf.
Qed.

Lemma processFire_settles sat f d :
  settled toTimestamp sat f (processFire' sat f d).
Proof.
  unfold processFire, ensureLocation, selectLocation, insertLocation.
  rewrite !accepted.
  destruct (filter (sameCoordinates (latitude f) (longitude f)) (fire_locations d))
    as [|r rows] eqn:Hf; simpl.
  - rewrite (existsb_filter_empty _ _ Hf). simpl.
    apply incidentStep_settles.
    unfold locationOf. simpl. rewrite filter_app, Hf. simpl.
    unfold sameCoordinates. simpl. now rewrite !decimalEq_refl.
  - apply incidentStep_settles.
    unfold locationOf. now rewrite Hf.
Qed.

Lemma saveLoop_settles sat fires :
  forall d f, In f fires -> settled toTimestamp sat f (saveLoop' sat fires d).
Proof.
  induction fires as [|g fires IH]; intros d f Hin; [contradiction|].
  change (saveLoop' sat (g :: fires) d)
    with (saveLoop' sat fires (processFire' sat g d)).
  destruct Hin as [<- | Hin]; [|now apply IH].
  eapply settled_extends; [apply saveLoop_extends | apply processFire_settles].
Qed.

End PersisterClaims.

Lemma saveLoop_settled_id rejects toTimestamp sat fires :
  forall d,
    (forall f, In f fires -> settled toTimestamp sat f d) ->
    saveLoop rejects toTimestamp sat fires d = d.
Proof.
  unfold saveLoop.
  induction fires as [|g fires IH]; intros d Hall; simpl; [reflexivity|].
  rewrite processFire_settled by (apply Hall; now left).
  apply IH. intros f Hf. apply Hall. now right.
Qed.

(** When the server accepts every statement, a second pass of the loop
    over the same batch, under the same satellite id, changes nothing. *)
Lemma saveLoop_idempotent rejects toTimestamp sat fires d :
  (forall st, rejects st = false) ->
  saveLoop rejects toTimestamp sat fires
    (saveLoop rejects toTimestamp sat fires d)
  = saveLoop rejects toTimestamp sat fires d.
Proof.
  intros Hacc. apply saveLoop_settled_id.
  intros f Hf. now apply saveLoop_settles.
Qed.

(** C1: running [saveFireData] on a batch and then again on the same
    batch with the same label leaves the Fire Incident rows of the first
    run as they are; a detection whose (location, sensor, acquisition
    timestamp) key is stored is skipped by the loop body, which then
    writes nothing at all -- no row is inserted, none is updated; and a
    second pass of the loop over the batch is no change when the server
    accepts every statement. *)
Theorem C1_reingestion_is_noop (rejects : stmt -> bool)
    (toTimestamp : dateprop -> option Z) (fires : list fire) (src : string)
    (d : db) :
  let d1 := snd (saveFireData rejects toTimestamp fires src d) in
  let d2 := snd (saveFireData rejects toTimestamp fires src d1) in
  fire_incidents d2 = fire_incidents d1 /\
  (forall sat f d0,
     keyStored toTimestamp sat f d0 ->
     processFire rejects toTimestamp sat f d0 = d0) /\
  ((forall st, rejects st = false) ->
   forall sat d0,
     saveLoop rejects toTimestamp sat fires
       (saveLoop rejects toTimestamp sat fires d0)
     = saveLoop rejects toTimestamp sat fires d0).
Proof.
  intros d1 d2. split; [|split].
  - apply (saveFireData_again rejects toTimestamp fires fires src d).
  - intros sat f d0 Hkey.
    apply processFire_settled. now apply keyStored_settled.
  - intros Hacc sat d0. now apply saveLoop_idempotent.
Qed.

Example saveFireData_first :
  saveFireData Sample.acceptAll Sample.timestampOfDate [Sample.goodFire]
    "ALL_SOURCES" Sample.emptyDb
  = (Ok 1, Sample.storeAfterFirstSave).
Proof. vm_compute. reflexivity. Qed.

Lemma C1_witness :
  fire_incidents
    (snd (saveFireData Sample.acceptAll Sample.timestampOfDate
            [Sample.goodFire] "ALL_SOURCES" Sample.storeAfterFirstSave))
  = fire_incidents Sample.storeAfterFirstSave /\
  processFire Sample.acceptAll Sample.timestampOfDate 1 Sample.goodFire
    Sample.storeAfterFirstSave
  = Sample.storeAfterFirstSave /\
  saveLoop Sample.acceptAll Sample.timestampOfDate 1 [Sample.goodFire]
    (saveLoop Sample.acceptAll Sample.timestampOfDate 1 [Sample.goodFire]
       Sample.emptyDb)
  = saveLoop Sample.acceptAll Sample.timestampOfDate 1 [Sample.goodFire]
      Sample.emptyDb.
Proof.
  destruct (C1_reingestion_is_noop Sample.acceptAll Sample.timestampOfDate
              [Sample.goodFire] "ALL_SOURCES" Sample.emptyDb)
    as (Hsame & Hskip & Hpass).
  split; [exact Hsame|]. split.
  - apply Hskip.
    exists 1, (19727 * ms_per_day).
    repeat split; vm_compute; reflexivity.
  - apply Hpass. intros st. reflexivity.
Defined.

(** Two detections at the same coordinates, a day apart, under one
    satellite id: two incidents share one location. *)
Example saveLoop_shared_location :
  let d := saveLoop Sample.acceptAll Sample.timestampOfDate 1
             [Sample.goodFire; Sample.laterFire] Sample.emptyDb in
  List.length (fire_locations d) = 1%nat /\
  map inc_location_id (fire_incidents d) = [1; 1] /\
  map inc_acquisition_date (fire_incidents d)
  = [19727 * ms_per_day; 19728 * ms_per_day].
Proof. vm_compute. repeat split; reflexivity. Qed.

(** C2, at the failing input: the first call with the label creates the
    satellite row and stores the detection; the next call with the same
    label, for a detection of the following day, throws at
    [satelliteData.rows[0].id] and stores nothing -- only the sequence of
    [satellite_data] has moved. *)
Theorem C2_second_call_throws :
  saveFireData Sample.acceptAll Sample.timestampOfDate [Sample.goodFire]
    "ALL_SOURCES" Sample.emptyDb
  = (Ok 1, Sample.storeAfterFirstSave) /\
  saveFireData Sample.acceptAll Sample.timestampOfDate [Sample.laterFire]
    "ALL_SOURCES" Sample.storeAfterFirstSave
  = (Throw TypeError_rows0_undefined,
     mkDb (satellite_data Sample.storeAfterFirstSave)
          (fire_locations Sample.storeAfterFirstSave)
          (fire_incidents Sample.storeAfterFirstSave)
          2 1 1).
Proof. vm_compute. split; reflexivity. Qed.

(* ------------------------------------------------------------------ *)
(** ** Scheduler *)
(* ------------------------------------------------------------------ *)

Lemma millisecondsUntilMidnight_spec (tz now : Z) :
  0 <= Scheduler.millisecondsUntilMidnight tz now < ms_per_day /\
  (now + Scheduler.millisecondsUntilMidnight tz now + tz) mod ms_per_day = 0.
Proof.
  unfold Scheduler.millisecondsUntilMidnight, Scheduler.nextMidnight,
    Scheduler.startOfLocalDay.
  assert (HD : 0 < ms_per_day) by reflexivity.
  pose proof (Z.mod_pos_bound (now + tz) ms_per_day HD) as Hr.
  pose proof (Z.div_mod (now + tz) ms_per_day) as Hdm.
  set (r := (now + tz) mod ms_per_day) in *.
  set (q := (now + tz) / ms_per_day) in *.
  assert (Hsum : now + tz = ms_per_day * q + r) by (apply Hdm; lia).
  destruct (now >? now - r) eqn:Hgt.
  - apply Z.gtb_lt in Hgt. split; [lia|].
    replace (now + (now - r + ms_per_day - now) + tz)
      with ((q + 1) * ms_per_day) by lia.
    apply Z_mod_mult.
  - assert (r = 0).
    { destruct (Z.gtb_spec now (now - r)); [discriminate | lia]. }
    split; [lia|].
    replace (now + (now - r - now) + tz) with (q * ms_per_day) by lia.
    apply Z_mod_mult.
Qed.

(** C9: when a Running cycle ends, resolved or rejected, the callback
    arms one timer whose delay is the time from that moment to the next
    local midnight (at least 0, less than a day, ending on a local
    midnight); the scheduler has no other step out of Running, so a failed
    cycle leaves the next run armed as a successful one does. *)
Theorem C9_cycle_end_rearms_timer (tz now : Z) (timers : list Scheduler.timer) :
  let t := Scheduler.mkTimer now (Scheduler.millisecondsUntilMidnight tz now) in
  (forall o,
     Scheduler.afterCycle tz o now timers = (timers ++ [t])%list /\
     Scheduler.step tz now (Scheduler.Running timers)
       (Scheduler.Idle (Scheduler.afterCycle tz o now timers))) /\
  (forall s',
     Scheduler.step tz now (Scheduler.Running timers) s' ->
     s' = Scheduler.Idle (timers ++ [t])%list) /\
  0 <= Scheduler.delay t < ms_per_day /\
  (Scheduler.armed_at t + Scheduler.delay t + tz) mod ms_per_day = 0.
Proof.
  intros t. split; [|split].
  - intros o. split.
    + destruct o; reflexivity.
    + constructor.
  - intros s' Hstep. inversion Hstep as [|now' o timers' Hnow Htimers]; subst.
    destruct o; reflexivity.
  - apply millisecondsUntilMidnight_spec.
Qed.

(** At 14:30 local time, three hours behind UTC, a rejected cycle arms the
    timer for nine and a half hours later. *)
Lemma C9_witness :
  Scheduler.Idle
    (Scheduler.afterCycle (-10800000) Scheduler.Rejected
       (19727 * ms_per_day + 63000000) [])
  = Scheduler.Idle
      [Scheduler.mkTimer (19727 * ms_per_day + 63000000) 34200000].
Proof.
  apply (C9_cycle_end_rearms_timer (-10800000)
           (19727 * ms_per_day + 63000000) []).
  constructor.
Defined.

(* ================================================================== *)
(** * Further properties of the code *)
(* ================================================================== *)

(* ------------------------------------------------------------------ *)
(** ** Locality Resolver: what it returns *)
(* ------------------------------------------------------------------ *)

Section ResolverMore.

Variable cities : list city.
Variable toLowerCase : string -> string.
Variable nominatim : history -> jsnum -> jsnum -> geo_outcome.

Local Abbreviation reverseGeocode' := (reverseGeocode cities toLowerCase nominatim).

Lemma closestLoop_in lat lon cs :
  forall best m c,
    closestLoop lat lon cs best m = Some c -> In c cs \/ best = Some c.
Proof.
  induction cs as [|c1 cs IH]; intros best m c; simpl.
  - now right.
  - destruct (ltb (distanceSq lat lon c1) m); intros H; apply IH in H.
    + destruct H as [H|H]; [left; now right|].
      injection H as ->. left; now left.
    + destruct H as [H|H]; [left; now right | now right].
Qed.

Lemma closestCityInfo_names_city lat lon info :
  closestCityInfo cities lat lon = Some info ->
  info_state info = "MA" /\
  exists c, In c cities /\ info_municipality info = city_name c.
Proof.
  unfold closestCityInfo.
  destruct (closestLoop lat lon cities None PInf) as [c|] eqn:Hc; [|discriminate].
  intros H; injection H as <-. split; [reflexivity|].
  apply closestLoop_in in Hc as [Hc|Hc]; [|discriminate].
  now exists c.
Qed.

Lemma primaryMatch_names_city g info :
  primaryMatch cities toLowerCase g = Some info ->
  info_state info = "MA" /\
  exists c, In c cities /\ info_municipality info = city_name c.
Proof.
  destruct g as [| | |[a|]]; simpl; try discriminate.
  unfold findMatchingCity.
  destruct (addressMunicipality a) as [| |m]; try discriminate.
  destruct (find _ cities) as [c|] eqn:Hf; [|discriminate].
  intros H; injection H as <-. split; [reflexivity|].
  apply find_some in Hf as [Hin _]. now exists c.
Qed.

(** Whatever the geocoder answers, a resolved locality carries the state
    code MA and the name, in the index's spelling, of a city of the
    Locality Index. *)
Theorem reverseGeocode_names_indexed_city lat lon h info :
  fst (reverseGeocode' lat lon h) = Some info ->
  info_state info = "MA" /\
  exists c, In c cities /\ info_municipality info = city_name c.
Proof.
  unfold reverseGeocode.
  destruct (outOfBounds lat lon); [discriminate|].
  destruct (primaryMatch cities toLowerCase (nominatim h lat lon)) as [i|] eqn:Hp;
    simpl.
  - intros H; injection H as <-. now apply (primaryMatch_names_city _ _ Hp).
  - apply closestCityInfo_names_city.
Qed.

(** The resolver makes no call for a point outside the region and one
    call otherwise. *)
Lemma reverseGeocode_history lat lon h :
  snd (reverseGeocode' lat lon h)
  = if outOfBounds lat lon then h else EvNominatim lat lon :: h.
Proof.
  unfold reverseGeocode.
  destruct (outOfBounds lat lon); [reflexivity|].
  destruct (primaryMatch _ _ _); reflexivity.
Qed.

Lemma distanceSq_nan_latitude lon c : distanceSq NaN lon c = NaN.
Proof. reflexivity. Qed.

Lemma distanceSq_nan_longitude lat c : distanceSq lat NaN c = NaN.
Proof.
  unfold distanceSq. simpl.
  destruct (mul _ _); reflexivity.
Qed.

Lemma closestLoop_nan lat lon cs :
  (forall c, distanceSq lat lon c = NaN) ->
  forall best m, closestLoop lat lon cs best m = best.
Proof.
  intros Hnan.
  induction cs as [|c cs IH]; intros best m; simpl; [reflexivity|].
  rewrite Hnan. simpl. apply IH.
Qed.

(** A NaN coordinate is not outside the region for the bounds test: the
    geocoder is called, and when it gives no indexed city the result is
    null, however many cities the index has. *)
Theorem reverseGeocode_nan_coordinate lat lon h :
  lat = NaN \/ lon = NaN ->
  outOfBounds lat lon = false ->
  primaryFails cities toLowerCase (nominatim h lat lon) ->
  reverseGeocode' lat lon h = (None, EvNominatim lat lon :: h).
Proof.
  intros Hnan Hb Hfail. unfold reverseGeocode. rewrite Hb.
  rewrite (primaryFails_no_match _ _ _ Hfail).
  unfold closestCityInfo.
  rewrite closestLoop_nan; [reflexivity|].
  intros c. destruct Hnan as [-> | ->];
    [apply distanceSq_nan_latitude | apply distanceSq_nan_longitude].
Qed.

(** The scan keeps the first of the nearest cities: from a current best
    that is strictly nearer than what stands before it and at least as
    near as what stands between it and the rest. *)
Lemma closestLoop_first (p q : Q) (cs : list city) :
  forall pre0 c0 mid,
    (forall c', In c' pre0 -> (euclidSq p q c0 < euclidSq p q c')%Q) ->
    (forall c', In c' mid -> (euclidSq p q c0 <= euclidSq p q c')%Q) ->
    exists pre c post,
      (pre0 ++ c0 :: mid ++ cs)%list = (pre ++ c :: post)%list /\
      closestLoop (Fin p) (Fin q) cs (Some c0) (Fin (euclidSq p q c0)) = Some c /\
      (forall c', In c' pre -> (euclidSq p q c < euclidSq p q c')%Q) /\
      (forall c', In c' post -> (euclidSq p q c <= euclidSq p q c')%Q).
Proof.
  induction cs as [|c1 cs IH]; intros pre0 c0 mid Hpre Hmid; cbn [closestLoop].
  - exists pre0, c0, mid. rewrite app_nil_r. repeat split; assumption.
  - rewrite distanceSq_finite.
    change (ltb (Fin (euclidSq p q c1)) (Fin (euclidSq p q c0)))
      with (Qltb (euclidSq p q c1) (euclidSq p q c0)).
    destruct (Qltb (euclidSq p q c1) (euclidSq p q c0)) eqn:Hlt.
    + apply Qltb_true_lt in Hlt.
      destruct (IH (pre0 ++ c0 :: mid)%list c1 []) as (pre & c & post & Heq & Hrun & H1 & H2).
      * intros c' Hin. apply in_app_or in Hin as [Hin | [<- | Hin]].
        -- eapply Qlt_trans; [exact Hlt | now apply Hpre].
        -- exact Hlt.
        -- eapply Qlt_le_trans; [exact Hlt | now apply Hmid].
      * intros c' [].
      * exists pre, c, post. repeat split; try assumption.
        rewrite <- Heq. cbn [app]. rewrite <- app_assoc. reflexivity.
    + apply Qltb_false_le in Hlt.
      destruct (IH pre0 c0 (mid ++ [c1])%list) as (pre & c & post & Heq & Hrun & H1 & H2).
      * exact Hpre.
      * intros c' Hin. apply in_app_or in Hin as [Hin | [<- | []]];
          [now apply Hmid | exact Hlt].
      * exists pre, c, post. repeat split; try assumption.
        rewrite <- Heq. rewrite <- app_assoc. reflexivity.
Qed.

(** Among the cities at minimum distance from a finite point the scan
    returns the one that comes first in the index: every city before the
    one returned is strictly farther, every city after it at least as
    far. *)
Theorem closestCity_first_of_the_nearest (p q : Q) :
  cities <> [] ->
  exists pre c post,
    cities = (pre ++ c :: post)%list /\
    closestCityInfo cities (Fin p) (Fin q)
      = Some {| info_state := "MA"; info_municipality := city_name c |} /\
    (forall c', In c' pre -> (euclidSq p q c < euclidSq p q c')%Q) /\
    (forall c', In c' post -> (euclidSq p q c <= euclidSq p q c')%Q).
Proof.
  unfold closestCityInfo.
  destruct cities as [|c1 cs]; [congruence|]. intros _.
  cbn [closestLoop]. rewrite distanceSq_finite.
  change (ltb (Fin (euclidSq p q c1)) PInf) with true. cbv iota.
  destruct (closestLoop_first p q cs [] c1 []) as (pre & c & post & Heq & Hrun & H1 & H2).
  - intros c' [].
  - intros c' [].
  - exists pre, c, post. rewrite Hrun. repeat split; assumption.
Qed.

End ResolverMore.

Lemma reverseGeocode_nan_witness :
  reverseGeocode Sample.cities Sample.lowerAscii Sample.nominatimDown NaN NaN []
  = (None, [EvNominatim NaN NaN]).
Proof.
  apply (reverseGeocode_nan_coordinate Sample.cities Sample.lowerAscii
           Sample.nominatimDown NaN NaN []).
  - now left.
  - reflexivity.
  - exact I.
Defined.

Lemma reverseGeocode_names_witness :
  info_state (mkInfo "MA" "Caxias") = "MA" /\
  exists c, In c Sample.cities /\
            info_municipality (mkInfo "MA" "Caxias") = city_name c.
Proof.
  apply (reverseGeocode_names_indexed_city Sample.cities Sample.lowerAscii
           Sample.nominatimDown (Fin (Qmake (-50) 10)) (Fin (Qmake (-450) 10)) []).
  vm_compute. reflexivity.
Defined.

Lemma closestCity_first_witness :
  exists pre c post,
    Sample.cities = (pre ++ c :: post)%list /\
    closestCityInfo Sample.cities (Fin (Qmake (-50) 10)) (Fin (Qmake (-450) 10))
      = Some {| info_state := "MA"; info_municipality := city_name c |} /\
    (forall c', In c' pre ->
       (euclidSq (Qmake (-50) 10) (Qmake (-450) 10) c
        < euclidSq (Qmake (-50) 10) (Qmake (-450) 10) c')%Q) /\
    (forall c', In c' post ->
       (euclidSq (Qmake (-50) 10) (Qmake (-450) 10) c
        <= euclidSq (Qmake (-50) 10) (Qmake (-450) 10) c')%Q).
Proof.
  apply (closestCity_first_of_the_nearest Sample.cities
           (Qmake (-50) 10) (Qmake (-450) 10)).
  discriminate.
Defined.

(* ------------------------------------------------------------------ *)
(** ** Normalizer and Fetcher: what a run returns *)
(* ------------------------------------------------------------------ *)

Lemma strOr_nonempty (v : prop) (dflt : string) :
  dflt <> "" -> strOr v dflt <> "".
Proof.
  intros Hd. destruct v as [| |s]; simpl; try exact Hd.
  destruct (String.eqb s "") eqn:E; [exact Hd|].
  now apply String.eqb_neq.
Qed.

Lemma catalogue_instrument_nonempty (src : source) :
  In src SATELLITE_SOURCES ->
  id src <> "" /\ hd "" (split "_" (id src)) <> "".
Proof.
  intros Hin. simpl in Hin.
  repeat (destruct Hin as [<- | Hin]; [split; discriminate|]).
  contradiction.
Qed.

Lemma Qltb_inject_false (a b : Z) :
  Qltb (inject_Z a) (inject_Z b) = false -> b <= a.
Proof. intros H. apply Qltb_false_le in H. now rewrite Zle_Qle. Qed.

Section FetcherMore.

Variable cities : list city.
Variable toLowerCase : string -> string.
Variable nominatim : history -> jsnum -> jsnum -> geo_outcome.
Variable firms : history -> request -> fetch_outcome.
Variable parseDate : string -> option Z.
Variable StringToNumber : string -> jsnum.

Local Abbreviation reverseGeocode' := (reverseGeocode cities toLowerCase nominatim).
Local Abbreviation processRow' :=
  (processRow cities toLowerCase nominatim parseDate StringToNumber).
Local Abbreviation rowsLoop' :=
  (rowsLoop cities toLowerCase nominatim parseDate StringToNumber).
Local Abbreviation parseCsv' :=
  (parseCsv cities toLowerCase nominatim parseDate StringToNumber).
Local Abbreviation sourcesLoop' :=
  (sourcesLoop cities toLowerCase nominatim firms parseDate StringToNumber).
Local Abbreviation getMaranhaoFireData' :=
  (getMaranhaoFireData cities toLowerCase nominatim firms parseDate
     StringToNumber).

(** Everything an emitted row went through, and the detection built. *)
Lemma processRow_emit_inv src headers s e line h f h' :
  processRow' src headers s e line h = (Emit f, h') ->
  let raw := buildRow headers (split "," line) in
  let acquisition := rowAcquisition parseDate raw in
  let lat := safeParseFloat (getProp "latitude" raw) in
  let lon := safeParseFloat (getProp "longitude" raw) in
  dateTruthy acquisition = true /\
  dateBefore StringToNumber acquisition s = false /\
  dateAfter StringToNumber acquisition e = false /\
  outOfBounds lat lon = false /\
  exists info,
    reverseGeocode' lat lon h = (Some info, h') /\
    f = {| latitude := lat;
           longitude := lon;
           acquisition_date := acquisition;
           brightness := safeParseFloat
                           (or_else (getProp "bright_ti4" raw)
                                    (getProp "brightness" raw));
           scan := safeParseFloat (getProp "scan" raw);
           track := safeParseFloat (getProp "track" raw);
           satellite := strOr (getProp "satellite" raw) (id src);
           instrument := strOr (getProp "instrument" raw)
                               (hd "" (split "_" (id src)));
           confidence := safeParseInt (getProp "confidence" raw);
           frp := safeParseFloat (getProp "frp" raw);
           daynight := strOr (getProp "daynight" raw) "D";
           type_ := "hotspot";
           version := "1.0";
           municipality := info_municipality info;
           state := info_state info |}.
Proof.
  intros Hrow raw acquisition lat lon. revert Hrow.
  unfold processRow. fold raw. fold acquisition. fold lat. fold lon.
  destruct (negb (Nat.eqb _ _)); [discriminate|].
  destruct (negb (dateTruthy acquisition)) eqn:Hd; [discriminate|].
  destruct (dateBefore StringToNumber acquisition s
            || dateAfter StringToNumber acquisition e) eqn:Hr; [discriminate|].
  destruct (isNaN lat || isNaN lon); [discriminate|].
  destruct (outOfBounds lat lon) eqn:Hb; [discriminate|].
  destruct (reverseGeocode' lat lon h) as [[info|] h1] eqn:Hg; [|discriminate].
  intros H; injection H as <- <-.
  apply negb_false_iff in Hd. apply orb_false_iff in Hr as [Hr1 Hr2].
  repeat split; try assumption.
  exists info. split; reflexivity.
Qed.

Lemma processRow_emit_canonical src headers s e line h f h' :
  In src SATELLITE_SOURCES ->
  processRow' src headers s e line h = (Emit f, h') ->
  canonical cities f.
Proof.
  intros Hsrc Hrow.
  apply processRow_emit_inv in Hrow as (_ & _ & _ & _ & info & Hg & ->).
  destruct (catalogue_instrument_nonempty src Hsrc) as [Hid Hinstr].
  assert (Hinfo : info_state info = "MA" /\
                  exists c, In c cities /\ info_municipality info = city_name c).
  { eapply reverseGeocode_names_indexed_city. rewrite Hg. reflexivity. }
  destruct Hinfo as [Hst Hmuni].
  unfold canonical; simpl.
  repeat split;
    auto using safeParseFloat_not_NaN, safeParseInt_not_NaN, strOr_nonempty.
  apply strOr_nonempty. discriminate.
Qed.

Lemma processRow_emit_dated src headers s e line h f h' :
  processRow' src headers s e line h = (Emit f, h') ->
  datedWithin s e f.
Proof.
  intros Hrow.
  apply processRow_emit_inv in Hrow as (_ & Hb & Ha & _ & info & _ & ->).
  unfold datedWithin; simpl.
  destruct (rowAcquisition parseDate _) as [v|[t|]]; try exact I.
  unfold dateBefore, dateAfter, gtb in *. simpl in Hb, Ha.
  split; now apply Qltb_inject_false.
Qed.

(** *** From one row to a whole run *)

Lemma rowsLoop_Forall (P : fire -> Prop) src headers s e :
  (forall line h f h',
     processRow' src headers s e line h = (Emit f, h') -> P f) ->
  forall rows fires h,
    Forall P fires ->
    Forall P (fst (rowsLoop' src headers s e rows fires h)).
Proof.
  intros HP rows.
  induction rows as [|line rows IH]; intros fires h Hf; simpl; [exact Hf|].
  destruct (processRow' src headers s e line h) as [o h1] eqn:Hrow.
  destruct o; try (now apply IH).
  apply IH. apply Forall_app. split; [exact Hf|].
  constructor; [|constructor]. eapply HP; exact Hrow.
Qed.

Lemma sourcesLoop_Forall (P : fire -> Prop) s e srcs :
  (forall src headers line h f h',
     In src srcs ->
     processRow' src headers s e line h = (Emit f, h') -> P f) ->
  forall allFires h fires h',
    Forall P allFires ->
    sourcesLoop' srcs s e allFires h = (Ok fires, h') ->
    Forall P fires.
Proof.
  induction srcs as [|src srcs IH]; intros HP allFires h fires h' Hall; simpl.
  - intros H; injection H as <- <-. exact Hall.
  - assert (HP' : forall src0 headers line h0 f h0',
               In src0 srcs ->
               processRow' src0 headers s e line h0 = (Emit f, h0') -> P f).
    { intros src0 headers line h0 f h0' Hin. apply HP. now right. }
    destruct (firms h _) as [|status|text]; [discriminate| |].
    + now apply IH.
    + destruct (parseCsv' src s e text _) as [fs h2] eqn:Hcsv.
      apply IH; [exact HP'|]. apply Forall_app. split; [exact Hall|].
      unfold parseCsv in Hcsv.
      change fs with (fst (fs, h2)). rewrite <- Hcsv.
      apply rowsLoop_Forall; [|constructor].
      intros line h0 f h0'. apply HP. now left.
Qed.

(** Every detection a run returns is canonical: type hotspot, version
    1.0, state MA, a municipality of the Locality Index, satellite,
    instrument and day/night flag not empty, and no NaN among its
    numbers. *)
Theorem getMaranhaoFireData_canonical startDate endDate h fires h' :
  getMaranhaoFireData' startDate endDate h = (Ok fires, h') ->
  Forall (canonical cities) fires.
Proof.
  unfold getMaranhaoFireData.
  destruct startDate as [s|]; [|discriminate].
  destruct endDate as [e|]; [|discriminate].
  apply sourcesLoop_Forall; [|constructor].
  intros src headers line h0 f h0' Hin. now apply processRow_emit_canonical.
Qed.

(** Every detection a run returns with a valid acquisition [Date] is
    dated between the two dates of the request, ends included. *)
Theorem getMaranhaoFireData_dated s e h fires h' :
  getMaranhaoFireData' (Some s) (Some e) h = (Ok fires, h') ->
  Forall (datedWithin s e) fires.
Proof.
  unfold getMaranhaoFireData.
  apply sourcesLoop_Forall; [|constructor].
  intros src headers line h0 f h0' _. now apply processRow_emit_dated.
Qed.

(** A row whose [acq_date] text gives an Invalid Date is not dropped by
    the date test, whatever the requested range: it is emitted, dated by
    the Invalid Date, once its columns, coordinates and locality pass. *)
Theorem processRow_invalid_date_emitted src headers s e line h a info h' :
  let raw := buildRow headers (split "," line) in
  let lat := safeParseFloat (getProp "latitude" raw) in
  let lon := safeParseFloat (getProp "longitude" raw) in
  List.length (split "," line) = List.length headers ->
  getProp "acq_date" raw = Str a -> a <> "" ->
  parseDate a = None ->
  outOfBounds lat lon = false ->
  reverseGeocode' lat lon h = (Some info, h') ->
  exists f,
    processRow' src headers s e line h = (Emit f, h') /\
    acquisition_date f = DDate None.
Proof.
  intros raw lat lon Hlen Hacq Hne Hparse Hb Hg.
  unfold processRow. fold raw. fold lat. fold lon.
  rewrite Hlen, Nat.eqb_refl. simpl negb. cbv iota.
  assert (Hrow : rowAcquisition parseDate raw = DDate None).
  { unfold rowAcquisition. rewrite Hacq. simpl.
    apply String.eqb_neq in Hne. rewrite Hne. simpl. now rewrite Hparse. }
  rewrite Hrow. simpl.
  unfold lat at 1, lon at 1. rewrite !safeParseFloat_not_NaN. simpl.
  rewrite Hb, Hg. eexists. split; reflexivity.
Qed.

End FetcherMore.

Lemma getMaranhaoFireData_canonical_witness :
  Forall (canonical Sample.cities) [Sample.goodFire].
Proof.
  apply (getMaranhaoFireData_canonical Sample.cities Sample.lowerAscii
           Sample.nominatimDown Sample.firmsOnce Sample.parseIsoDate
           Sample.noNumber (Some Sample.jan01) (Some Sample.jan08) []
           [Sample.goodFire]
           (snd (getMaranhaoFireData Sample.cities Sample.lowerAscii
                   Sample.nominatimDown Sample.firmsOnce Sample.parseIsoDate
                   Sample.noNumber (Some Sample.jan01) (Some Sample.jan08) []))).
  vm_compute. reflexivity.
Defined.

Lemma getMaranhaoFireData_dated_witness :
  Forall (datedWithin Sample.jan01 Sample.jan08) [Sample.goodFire].
Proof.
  apply (getMaranhaoFireData_dated Sample.cities Sample.lowerAscii
           Sample.nominatimDown Sample.firmsOnce Sample.parseIsoDate
           Sample.noNumber Sample.jan01 Sample.jan08 []
           [Sample.goodFire]
           (snd (getMaranhaoFireData Sample.cities Sample.lowerAscii
                   Sample.nominatimDown Sample.firmsOnce Sample.parseIsoDate
                   Sample.noNumber (Some Sample.jan01) (Some Sample.jan08) []))).
  vm_compute. reflexivity.
Defined.

Lemma processRow_invalid_date_witness :
  exists f,
    processRow Sample.cities Sample.lowerAscii Sample.nominatimDown
      Sample.parseIsoDate Sample.noNumber Cases.viirs
      (split "," Sample.csvHeader) Sample.jan01 Sample.jan08 Cases.undatedRow []
    = (Emit f, [EvNominatim (Fin (Qmake (-50) 10)) (Fin (Qmake (-450) 10))])
    /\ acquisition_date f = DDate None.
Proof.
  apply (processRow_invalid_date_emitted Sample.cities Sample.lowerAscii
           Sample.nominatimDown Sample.parseIsoDate Sample.noNumber Cases.viirs
           (split "," Sample.csvHeader) Sample.jan01 Sample.jan08
           Cases.undatedRow [] "soon" (mkInfo "MA" "Caxias")
           [EvNominatim (Fin (Qmake (-50) 10)) (Fin (Qmake (-450) 10))]).
  - vm_compute; reflexivity.
  - vm_compute; reflexivity.
  - discriminate.
  - vm_compute; reflexivity.
  - vm_compute; reflexivity.
  - vm_compute; reflexivity.
Defined.

Example processRow_undated :
  processRow Sample.cities Sample.lowerAscii Sample.nominatimDown
    Sample.parseIsoDate Sample.noNumber Cases.viirs
    (split "," Sample.csvHeader) Sample.jan01 Sample.jan08 Cases.undatedRow []
  = (Emit Cases.undatedFire,
     [EvNominatim (Fin (Qmake (-50) 10)) (Fin (Qmake (-450) 10))]).
Proof. vm_compute. reflexivity. Qed.

(* ------------------------------------------------------------------ *)
(** ** Fetcher: calls made, empty index, repeated runs *)
(* ------------------------------------------------------------------ *)

Section FetcherCounts.

Variable cities : list city.
Variable toLowerCase : string -> string.
Variable nominatim : history -> jsnum -> jsnum -> geo_outcome.
Variable firms : history -> request -> fetch_outcome.
Variable parseDate : string -> option Z.
Variable StringToNumber : string -> jsnum.

Local Abbreviation reverseGeocode' := (reverseGeocode cities toLowerCase nominatim).
Local Abbreviation processRow' :=
  (processRow cities toLowerCase nominatim parseDate StringToNumber).
Local Abbreviation rowsLoop' :=
  (rowsLoop cities toLowerCase nominatim parseDate StringToNumber).
Local Abbreviation parseCsv' :=
  (parseCsv cities toLowerCase nominatim parseDate StringToNumber).
Local Abbreviation sourcesLoop' :=
  (sourcesLoop cities toLowerCase nominatim firms parseDate StringToNumber).
Local Abbreviation getMaranhaoFireData' :=
  (getMaranhaoFireData cities toLowerCase nominatim firms parseDate
     StringToNumber).
Local Abbreviation allSatelliteLoop' :=
  (allSatelliteLoop cities toLowerCase nominatim firms parseDate
     StringToNumber).
Local Abbreviation fetchAllSatelliteData' :=
  (fetchAllSatelliteData cities toLowerCase nominatim firms parseDate
     StringToNumber).

(** A row costs one geocoder call when it reaches the resolver -- it is
    then emitted or left without a municipality -- and none otherwise. *)
Lemma processRow_calls src headers s e line h :
  match fst (processRow' src headers s e line h) with
  | Emit _ | SkipNoMunicipality =>
      geocoderCalls (snd (processRow' src headers s e line h))
      = S (geocoderCalls h)
  | _ => snd (processRow' src headers s e line h) = h
  end.
Proof.
  unfold processRow.
  destruct (negb (Nat.eqb _ _)); [reflexivity|].
  destruct (negb (dateTruthy _)); [reflexivity|].
  destruct (_ || _); [reflexivity|].
  destruct (_ || _); [reflexivity|].
  destruct (outOfBounds _ _) eqn:Hb; [reflexivity|].
  pose proof (reverseGeocode_history cities toLowerCase nominatim
                (safeParseFloat (getProp "latitude" (buildRow headers (split "," line))))
                (safeParseFloat (getProp "longitude" (buildRow headers (split "," line))))
                h) as Hh.
  rewrite Hb in Hh.
  destruct (reverseGeocode' _ _ h) as [[info|] h1]; simpl in *; subst h1;
    reflexivity.
Qed.

Lemma rowsLoop_counts src headers s e rows :
  forall fires h,
    let out := rowsLoop' src headers s e rows fires h in
    (List.length fires <= List.length (fst out))%nat /\
    (List.length (fst out) + geocoderCalls h
     <= List.length fires + geocoderCalls (snd out))%nat /\
    (geocoderCalls (snd out) <= geocoderCalls h + List.length rows)%nat /\
    (List.length (fst out) <= List.length fires + List.length rows)%nat.
Proof.
  induction rows as [|line rows IH]; intros fires h; simpl.
  - repeat split; lia.
  - pose proof (processRow_calls src headers s e line h) as Hc.
    destruct (processRow' src headers s e line h) as [o h1]; simpl in Hc.
    destruct o as [| | | | | |f];
      try (subst h1; specialize (IH fires h); simpl in IH;
           destruct IH as (A & B & C & D); repeat split; lia).
    + specialize (IH fires h1). simpl in IH.
      destruct IH as (A & B & C & D). repeat split; lia.
    + specialize (IH (fires ++ [f])%list h1). simpl in IH.
      rewrite length_app in IH. simpl in IH.
      destruct IH as (A & B & C & D). repeat split; lia.
Qed.

(** One payload: the detections it gives are at most its data rows, each
    detection cost one reverse-geocoding call, and no more calls were made
    than there are data rows. *)
Theorem parseCsv_counts src s e text h :
  let rows := tl (split LF (trim text)) in
  let out := parseCsv' src s e text h in
  (List.length (fst out) + geocoderCalls h <= geocoderCalls (snd out))%nat /\
  (geocoderCalls (snd out) <= geocoderCalls h + List.length rows)%nat /\
  (List.length (fst out) <= List.length rows)%nat.
Proof.
  intros rows out. unfold out, parseCsv.
  destruct (rowsLoop_counts src (split "," (hd "" (split LF (trim text)))) s e
              rows [] h) as (A & B & C & D).
  fold rows. simpl in *. repeat split; lia.
Qed.

(** *** An empty Locality Index *)

Lemma reverseGeocode_empty_index lat lon h :
  fst (reverseGeocode [] toLowerCase nominatim lat lon h) = None.
Proof.
  unfold reverseGeocode.
  destruct (outOfBounds lat lon); [reflexivity|].
  destruct (nominatim h lat lon) as [| | |[a|]]; simpl; try reflexivity.
  unfold findMatchingCity.
  destruct (addressMunicipality a); reflexivity.
Qed.

End FetcherCounts.

(** With an empty Locality Index no locality resolves, so a run returns
    no detection, whatever the payloads hold. *)
Theorem getMaranhaoFireData_empty_index toLowerCase nominatim firms parseDate
    StringToNumber startDate endDate h fires h' :
  getMaranhaoFireData [] toLowerCase nominatim firms parseDate StringToNumber
    startDate endDate h = (Ok fires, h') ->
  fires = [].
Proof.
  intros Hrun.
  assert (Hnone : Forall (fun _ : fire => False) fires).
  { revert Hrun. unfold getMaranhaoFireData.
    destruct startDate as [s|]; [|discriminate].
    destruct endDate as [e|]; [|discriminate].
    apply sourcesLoop_Forall; [|constructor].
    intros src headers line h0 f h0' _ Hrow.
    apply processRow_emit in Hrow as (_ & _ & _ & _ & info & Hg).
    pose proof (reverseGeocode_empty_index toLowerCase nominatim
                  (latitude f) (longitude f) h0) as Hnone.
    rewrite Hg in Hnone. discriminate. }
  destruct fires as [|f fires]; [reflexivity|].
  inversion Hnone as [|x l Hf _]. contradiction.
Qed.

Lemma getMaranhaoFireData_empty_index_witness :
  fst (getMaranhaoFireData [] Sample.lowerAscii Sample.nominatimDown
         Cases.firmsAlways Sample.parseIsoDate Sample.noNumber
         (Some Sample.jan01) (Some Sample.jan08) [])
  = Ok [].
Proof.
  destruct (getMaranhaoFireData [] Sample.lowerAscii Sample.nominatimDown
              Cases.firmsAlways Sample.parseIsoDate Sample.noNumber
              (Some Sample.jan01) (Some Sample.jan08) [])
    as [[fires|err] h'] eqn:Hrun.
  - rewrite (getMaranhaoFireData_empty_index _ _ _ _ _ _ _ _ _ _ Hrun).
    reflexivity.
  - vm_compute in Hrun. discriminate.
Defined.

Section FetcherStateless.

Variable cities : list city.
Variable toLowerCase : string -> string.
Variable nominatim : history -> jsnum -> jsnum -> geo_outcome.
Variable firms : history -> request -> fetch_outcome.
Variable parseDate : string -> option Z.
Variable StringToNumber : string -> jsnum.

Hypothesis same_answers : stateless firms nominatim.

Local Abbreviation reverseGeocode' := (reverseGeocode cities toLowerCase nominatim).
Local Abbreviation processRow' :=
  (processRow cities toLowerCase nominatim parseDate StringToNumber).
Local Abbreviation rowsLoop' :=
  (rowsLoop cities toLowerCase nominatim parseDate StringToNumber).
Local Abbreviation parseCsv' :=
  (parseCsv cities toLowerCase nominatim parseDate StringToNumber).
Local Abbreviation sourcesLoop' :=
  (sourcesLoop cities toLowerCase nominatim firms parseDate StringToNumber).
Local Abbreviation getMaranhaoFireData' :=
  (getMaranhaoFireData cities toLowerCase nominatim firms parseDate
     StringToNumber).
Local Abbreviation allSatelliteLoop' :=
  (allSatelliteLoop cities toLowerCase nominatim firms parseDate
     StringToNumber).
Local Abbreviation fetchAllSatelliteData' :=
  (fetchAllSatelliteData cities toLowerCase nominatim firms parseDate
     StringToNumber).

Lemma reverseGeocode_stateless lat lon h1 h2 :
  fst (reverseGeocode' lat lon h1) = fst (reverseGeocode' lat lon h2).
Proof.
  destruct same_answers as [_ Hn].
  unfold reverseGeocode.
  destruct (outOfBounds lat lon); [reflexivity|].
  rewrite (Hn h1), (Hn h2).
  destruct (primaryMatch _ _ _); reflexivity.
Qed.

Lemma processRow_stateless src headers s e line h1 h2 :
  fst (processRow' src headers s e line h1)
  = fst (processRow' src headers s e line h2).
Proof.
  unfold processRow.
  destruct (negb (Nat.eqb _ _)); [reflexivity|].
  destruct (negb (dateTruthy _)); [reflexivity|].
  destruct (_ || _); [reflexivity|].
  destruct (_ || _); [reflexivity|].
  destruct (outOfBounds _ _); [reflexivity|].
  pose proof (reverseGeocode_stateless
                (safeParseFloat (getProp "latitude" (buildRow headers (split "," line))))
                (safeParseFloat (getProp "longitude" (buildRow headers (split "," line))))
                h1 h2) as Hg.
  destruct (reverseGeocode' _ _ h1) as [[i1|] k1];
    destruct (reverseGeocode' _ _ h2) as [[i2|] k2];
    simpl in Hg; try discriminate; [|reflexivity].
  injection Hg as ->. reflexivity.
Qed.

Lemma rowsLoop_stateless src headers s e rows :
  forall fires h1 h2,
    fst (rowsLoop' src headers s e rows fires h1)
    = fst (rowsLoop' src headers s e rows fires h2).
Proof.
  induction rows as [|line rows IH]; intros fires h1 h2; simpl; [reflexivity|].
  pose proof (processRow_stateless src headers s e line h1 h2) as Hp.
  destruct (processRow' src headers s e line h1) as [o1 k1];
    destruct (processRow' src headers s e line h2) as [o2 k2].
  simpl in Hp. subst o2.
  destruct o1; apply IH.
Qed.

Lemma sourcesLoop_stateless srcs s e :
  forall allFires h1 h2,
    fst (sourcesLoop' srcs s e allFires h1)
    = fst (sourcesLoop' srcs s e allFires h2).
Proof.
  destruct same_answers as [Hf _].
  induction srcs as [|src srcs IH]; intros allFires h1 h2; simpl; [reflexivity|].
  rewrite (Hf h1), (Hf h2).
  destruct (firms [] _) as [|status|text]; [reflexivity| apply IH |].
  pose proof (rowsLoop_stateless src
                (split "," (hd "" (split LF (trim text)))) s e
                (tl (split LF (trim text))) []
                (EvFirms (requestFor src s e) :: h1)
                (EvFirms (requestFor src s e) :: h2)) as Hr.
  unfold parseCsv.
  destruct (rowsLoop' src _ s e _ [] (EvFirms (requestFor src s e) :: h1))
    as [f1 k1];
    destruct (rowsLoop' src _ s e _ [] (EvFirms (requestFor src s e) :: h2))
      as [f2 k2].
  simpl in Hr. subst f2. apply IH.
Qed.

Lemma getMaranhaoFireData_stateless startDate endDate h1 h2 :
  fst (getMaranhaoFireData' startDate endDate h1)
  = fst (getMaranhaoFireData' startDate endDate h2).
Proof.
  unfold getMaranhaoFireData.
  destruct startDate as [s|]; [|reflexivity].
  destruct endDate as [e|]; [|reflexivity].
  apply sourcesLoop_stateless.
Qed.

Lemma allSatelliteLoop_repeats srcs startDate endDate :
  forall allFires h h0,
    fst (allSatelliteLoop' srcs startDate endDate allFires h)
    = (allFires
       ++ List.concat (repeat
                    match fst (getMaranhaoFireData' startDate endDate h0) with
                    | Ok fires => fires
                    | Throw _ => []
                    end
                    (List.length srcs)))%list.
Proof.
  induction srcs as [|src srcs IH]; intros allFires h h0;
    cbn [allSatelliteLoop List.length repeat List.concat].
  - now rewrite app_nil_r.
  - pose proof (getMaranhaoFireData_stateless startDate endDate h h0) as Hs.
    destruct (getMaranhaoFireData' startDate endDate h) as [[fires|err] h1];
      simpl in Hs; rewrite <- Hs.
    + rewrite (IH _ h1 h0), <- Hs. now rewrite app_assoc.
    + rewrite (IH _ h1 h0), <- Hs. reflexivity.
Qed.

(** When the two services answer the same whatever was called before,
    [fetchAllSatelliteData] returns six copies, one after the other, of
    what one run of [getMaranhaoFireData] returns -- each of its six
    iterations fetches the whole catalogue -- and nothing when that run
    fails. *)
Theorem fetchAllSatelliteData_six_copies startDate endDate h :
  fst (fetchAllSatelliteData' startDate endDate h)
  = match fst (getMaranhaoFireData' startDate endDate h) with
    | Ok fires => (fires ++ fires ++ fires ++ fires ++ fires ++ fires)%list
    | Throw _ => []
    end.
Proof.
  unfold fetchAllSatelliteData.
  rewrite (allSatelliteLoop_repeats SATELLITE_SOURCES startDate endDate [] h h).
  destruct (fst (getMaranhaoFireData' startDate endDate h)) as [fires|err];
    simpl; [|reflexivity].
  now rewrite app_nil_r.
Qed.

End FetcherStateless.

Lemma fetchAllSatelliteData_six_copies_witness :
  fst (fetchAllSatelliteData Sample.cities Sample.lowerAscii Sample.nominatimDown
         Sample.firmsOnce Sample.parseIsoDate Sample.noNumber
         (Some Sample.jan01) (Some Sample.jan08) [])
  = [Sample.goodFire; Sample.goodFire; Sample.goodFire;
     Sample.goodFire; Sample.goodFire; Sample.goodFire].
Proof.
  rewrite (fetchAllSatelliteData_six_copies Sample.cities Sample.lowerAscii
             Sample.nominatimDown Sample.firmsOnce Sample.parseIsoDate
             Sample.noNumber).
  - vm_compute. reflexivity.
  - split; intros; reflexivity.
Defined.

(* ------------------------------------------------------------------ *)
(** ** Persister: the store it builds *)
(* ------------------------------------------------------------------ *)

Lemma ForallOrdPairs_snoc {A : Type} (R : A -> A -> Prop) (l : list A) (x : A) :
  ForallOrdPairs R l -> Forall (fun y => R y x) l ->
  ForallOrdPairs R (l ++ [x]).
Proof.
  induction 1 as [|a l Ha Hl IH]; intros Hx; simpl.
  - constructor; constructor.
  - inversion Hx as [|? ? Hax Hlx]; subst.
    constructor; [|now apply IH].
    apply Forall_app. split; [exact Ha|]. constructor; [exact Hax|constructor].
Qed.

Lemma existsb_false_Forall {A : Type} (p : A -> bool) (l : list A) :
  existsb p l = false -> Forall (fun y => p y = false) l.
Proof.
  induction l as [|a l IH]; simpl; intros H; constructor.
  - now apply orb_false_iff in H as [H _].
  - apply IH. now apply orb_false_iff in H as [_ H].
Qed.

Lemma NoDup_snoc_fresh (l : list Z) (b : Z) :
  Forall (fun x => x <= b) l -> NoDup l -> NoDup (l ++ [b + 1]).
Proof.
  intros Hle Hnd.
  apply NoDup_app; [exact Hnd | repeat constructor; intros [] |].
  intros x Hx [<- | []].
  rewrite Forall_forall in Hle. specialize (Hle _ Hx). lia.
Qed.

Lemma writes_trans sat a b c : writes sat a b -> writes sat b c -> writes sat a c.
Proof.
  induction 1 as [|d d1 d2 Hw _ IH]; intros H; [exact H|].
  eapply writes_step; [exact Hw | now apply IH].
Qed.

Lemma writes_one sat a b : write sat a b -> writes sat a b.
Proof. intros H. eapply writes_step; [exact H | constructor]. Qed.

Section StoreFacts.

Variable rejects : stmt -> bool.
Variable toTimestamp : dateprop -> option Z.

Local Abbreviation processFire' := (processFire rejects toTimestamp).
Local Abbreviation saveLoop' := (saveLoop rejects toTimestamp).
Local Abbreviation saveFireData' := (saveFireData rejects toTimestamp).

(** The loop body is at most a write of a location followed by a write of
    an incident. *)
Lemma processFire_writes sat f d : writes sat d (processFire' sat f d).
Proof.
  destruct d as [sats locs incs a b c].
  unfold processFire, ensureLocation, selectLocation, insertLocation.
  cbn [fire_locations fire_incidents satellite_data seq_satellite seq_location
       seq_incident].
  destruct (rejects (SelectLocation _ _)); [constructor|].
  assert (Hinc : forall l locs' b',
             In l (map loc_id locs') ->
             writes sat (mkDb sats locs' incs a b' c)
               match selectIncident rejects toTimestamp l (acquisition_date f)
                       sat (mkDb sats locs' incs a b' c) with
               | Ok [] => snd (insertIncident rejects toTimestamp l sat f
                                 (mkDb sats locs' incs a b' c))
               | _ => mkDb sats locs' incs a b' c
               end).
  { intros l locs' b' Hl.
    unfold selectIncident, insertIncident.
    cbn [fire_locations fire_incidents satellite_data seq_satellite
         seq_location seq_incident].
    destruct (rejects (SelectIncident _ _ _)); [constructor|].
    destruct (toTimestamp (acquisition_date f)) as [ts|]; [|constructor].
    destruct (filter (sameIncident l ts sat) incs) as [|r rows] eqn:Hf;
      [|constructor].
    cbn [map].
    destruct (rejects (InsertIncident _ _ _)); [constructor|].
    rewrite (existsb_filter_empty _ _ Hf). cbn [snd].
    apply writes_one. constructor; [exact Hl|].
    now apply existsb_filter_empty. }
  destruct (filter (sameCoordinates (latitude f) (longitude f)) locs)
    as [|r rows] eqn:Hf; cbn [map].
  - destruct (rejects (InsertLocation _ _ _ _)); [constructor|].
    rewrite (existsb_filter_empty _ _ Hf).
    eapply writes_step.
    + apply (write_location sat sats locs incs a b c (latitude f) (longitude f)
               (if String.eqb (state f) "" then "MA" else state f)
               (if String.eqb (municipality f) "" then "Unknown"
                else municipality f)).
      now apply existsb_filter_empty.
    + match goal with
      | |- context [selectIncident _ _ ?l _ _ _] =>
          specialize (Hinc l
                        (locs ++ [mkLocation (b + 1) (latitude f) (longitude f)
                                    (if String.eqb (state f) "" then "MA" else state f)
                                    (if String.eqb (municipality f) ""
                                     then "Unknown" else municipality f)])%list
                        (b + 1))
      end.
      destruct (selectIncident _ _ _ _ _ _) as [[|x xs]|err];
        apply Hinc; rewrite map_app, in_app_iff; right; now left.
  - assert (Hr : In (loc_id r) (map loc_id locs)).
    { apply in_map.
      assert (In r (filter (sameCoordinates (latitude f) (longitude f)) locs))
        by (rewrite Hf; now left).
      now apply filter_In in H as [H _]. }
    specialize (Hinc (loc_id r) locs b Hr).
    destruct (selectIncident _ _ _ _ _ _) as [[|x xs]|err]; exact Hinc.
Qed.

Lemma saveLoop_writes sat fires : forall d, writes sat d (saveLoop' sat fires d).
Proof.
  unfold saveLoop.
  induction fires as [|f fires IH]; intros d; simpl; [constructor|].
  eapply writes_trans; [apply processFire_writes | apply IH].
Qed.

End StoreFacts.

Lemma grows_refl (d : db) : grows d d.
Proof. repeat split; exists []; now rewrite app_nil_r. Qed.

Lemma grows_trans (a b c : db) : grows a b -> grows b c -> grows a c.
Proof.
  intros ([t1 H1] & [t2 H2] & [t3 H3]) ([u1 K1] & [u2 K2] & [u3 K3]).
  repeat split.
  - exists (t1 ++ u1)%list. now rewrite K1, H1, app_assoc.
  - exists (t2 ++ u2)%list. now rewrite K2, H2, app_assoc.
  - exists (t3 ++ u3)%list. now rewrite K3, H3, app_assoc.
Qed.

Lemma write_grows sat d d' : write sat d d' -> grows d d'.
Proof.
  destruct 1; repeat split; simpl;
    try (exists []; now rewrite app_nil_r); now eauto.
Qed.

Lemma writes_grows sat d d' : writes sat d d' -> grows d d'.
Proof.
  induction 1 as [|d d1 d2 Hw _ IH]; [apply grows_refl|].
  eapply grows_trans; [eapply write_grows; exact Hw | exact IH].
Qed.

Lemma writes_satellite_data sat d d' :
  writes sat d d' -> satellite_data d' = satellite_data d.
Proof.
  induction 1 as [|d d1 d2 Hw _ IH]; [reflexivity|].
  rewrite IH. destruct Hw; reflexivity.
Qed.

Lemma Forall_le_weaken {A : Type} (g : A -> Z) (l : list A) (b b' : Z) :
  b <= b' ->
  Forall (fun r => g r <= b) l -> Forall (fun r => g r <= b') l.
Proof.
  intros Hb. apply Forall_impl. intros r Hr. lia.
Qed.

Lemma Forall_ids_upper {A : Type} (g : A -> Z) (l : list A) (b : Z) :
  Forall (fun r => g r <= b) l -> Forall (fun x => x <= b) (map g l).
Proof.
  intros H. now apply Forall_map.
Qed.

Lemma write_wellFormed sat d d' :
  write sat d d' ->
  In sat (map sat_id (satellite_data d)) ->
  wellFormed d -> wellFormed d'.
Proof.
  intros Hw Hsat ((Hs & Hl & Hi & Ns & Nl & Ni) & Href & (Ks & Kl & Ki)).
  unfold wellFormed, idsFromSequences, referencesResolve, keysUnique.
  destruct Hw as [sats locs incs a b c a' b' c' Ha Hb Hc
                 |sats locs incs a b c lat lon st muni Hfresh
                 |sats locs incs a b c l ts br sc tr fr dn ty ve co Hl0 Hfresh];
    cbn [satellite_data fire_locations fire_incidents seq_satellite
         seq_location seq_incident] in *.
  - split; [|split; [exact Href | now repeat split]].
    split; [|split; [|split; [|now repeat split]]];
      eauto using Forall_le_weaken.
  - split; [|split].
    + split; [exact Hs|]. split; [|split; [exact Hi|]].
      * apply Forall_app. split.
        -- eapply Forall_le_weaken; [|exact Hl]. lia.
        -- constructor; [simpl; lia | constructor].
      * split; [exact Ns|]. split; [|exact Ni].
        rewrite map_app. simpl. apply NoDup_snoc_fresh; [|exact Nl].
        now apply Forall_ids_upper.
    + revert Href. apply Forall_impl. intros i [H1 H2]. split; [|exact H2].
      rewrite map_app, in_app_iff. now left.
    + split; [exact Ks|]. split; [|exact Ki].
      apply ForallOrdPairs_snoc; [exact Kl|]. simpl.
      now apply existsb_false_Forall.
  - split; [|split].
    + split; [exact Hs|]. split; [exact Hl|]. split.
      * apply Forall_app. split.
        -- eapply Forall_le_weaken; [|exact Hi]. lia.
        -- constructor; [simpl; lia | constructor].
      * split; [exact Ns|]. split; [exact Nl|].
        rewrite map_app. simpl. apply NoDup_snoc_fresh; [|exact Ni].
        now apply Forall_ids_upper.
    + apply Forall_app. split; [exact Href|].
      constructor; [simpl; now split | constructor].
    + split; [exact Ks|]. split; [exact Kl|].
      apply ForallOrdPairs_snoc; [exact Ki|]. simpl.
      now apply existsb_false_Forall.
Qed.

Lemma writes_wellFormed sat d d' :
  writes sat d d' ->
  In sat (map sat_id (satellite_data d)) ->
  wellFormed d -> wellFormed d'.
Proof.
  induction 1 as [|d d1 d2 Hw Hws IH]; intros Hsat Hwf; [exact Hwf|].
  apply IH.
  - replace (satellite_data d1) with (satellite_data d); [exact Hsat|].
    destruct Hw; reflexivity.
  - eapply write_wellFormed; eassumption.
Qed.

Section StoreInvariants.

Variable rejects : stmt -> bool.
Variable toTimestamp : dateprop -> option Z.

Local Abbreviation saveLoop' := (saveLoop rejects toTimestamp).
Local Abbreviation saveFireData' := (saveFireData rejects toTimestamp).

(** The satellite statement keeps the store well formed and grows it by
    at most the new row, whose id it returns. *)
Lemma upsertSatellite_wellFormed src sat instr d :
  wellFormed d ->
  wellFormed (snd (upsertSatellite rejects src sat instr d)) /\
  forall n rows,
    fst (upsertSatellite rejects src sat instr d) = Ok (n :: rows) ->
    In n (map sat_id (satellite_data (snd (upsertSatellite rejects src sat instr d)))).
Proof.
  intros ((Hs & Hl & Hi & Ns & Nl & Ni) & Href & (Ks & Kl & Ki)).
  unfold upsertSatellite.
  destruct (rejects _); simpl.
  { split; [now repeat split|discriminate]. }
  destruct (existsb (sameSatellite src sat instr) (satellite_data d)) eqn:Hex;
    simpl.
  - split; [|discriminate].
    unfold wellFormed, idsFromSequences, referencesResolve, keysUnique; simpl.
    repeat split; try assumption.
    eapply Forall_le_weaken; [|exact Hs]. lia.
  - split.
    + unfold wellFormed, idsFromSequences, referencesResolve, keysUnique;
        simpl.
      split; [|split].
      * split; [|split; [exact Hl|split; [exact Hi|]]].
        -- apply Forall_app. split.
           ++ eapply Forall_le_weaken; [|exact Hs]. lia.
           ++ constructor; [simpl; lia | constructor].
        -- split; [|now split].
           rewrite map_app. simpl. apply NoDup_snoc_fresh; [|exact Ns].
           now apply Forall_ids_upper.
      * revert Href. apply Forall_impl. intros i [H1 H2]. split; [exact H1|].
        rewrite map_app, in_app_iff. now left.
      * split; [|now split].
        apply ForallOrdPairs_snoc; [exact Ks|]. simpl.
        now apply existsb_false_Forall.
    + intros n rows H. injection H as <- <-.
      rewrite map_app, in_app_iff. right. now left.
Qed.

Lemma upsertSatellite_grows src sat instr d :
  grows d (snd (upsertSatellite rejects src sat instr d)).
Proof.
  unfold upsertSatellite.
  destruct (rejects _); [apply grows_refl|].
  destruct (existsb _ _); repeat split; simpl;
    try (exists []; now rewrite app_nil_r); now eauto.
Qed.

Lemma saveFireData_wellFormed fires src d :
  wellFormed d -> wellFormed (snd (saveFireData' fires src d)).
Proof.
  intros Hwf. unfold saveFireData.
  destruct (upsertSatellite_wellFormed src src src d Hwf) as [Hwf1 Hin].
  destruct (upsertSatellite rejects src src src d) as [[[|n rows]|err] d1];
    simpl in *; try exact Hwf1.
  eapply writes_wellFormed; [apply saveLoop_writes | | exact Hwf1].
  now apply (Hin n rows).
Qed.

(** [saveFireData] never deletes or changes a row: each table of the
    store it leaves begins with the rows of the store it was given, in
    their order. *)
Theorem saveFireData_append_only fires src d :
  grows d (snd (saveFireData' fires src d)).
Proof.
  unfold saveFireData.
  pose proof (upsertSatellite_grows src src src d) as Hg.
  destruct (upsertSatellite rejects src src src d) as [[[|n rows]|err] d1];
    simpl in *; try exact Hg.
  eapply grows_trans; [exact Hg|].
  eapply writes_grows. apply saveLoop_writes.
Qed.

End StoreInvariants.

Section StoreOfThePipeline.

Variable cities : list city.
Variable toLowerCase : string -> string.
Variable nominatim : history -> jsnum -> jsnum -> geo_outcome.
Variable firms : history -> request -> fetch_outcome.
Variable parseDate : string -> option Z.
Variable StringToNumber : string -> jsnum.
Variable rejects : stmt -> bool.
Variable toTimestamp : dateprop -> option Z.

Local Abbreviation runPipeline' :=
  (runPipeline cities toLowerCase nominatim firms parseDate StringToNumber
     rejects toTimestamp).
Local Abbreviation populated' :=
  (populated cities toLowerCase nominatim firms parseDate StringToNumber
     rejects toTimestamp).

Lemma runPipeline_wellFormed startDate endDate h d :
  wellFormed d -> wellFormed (snd (runPipeline' startDate endDate h d)).
Proof.
  intros Hwf. unfold runPipeline.
  destruct (getMaranhaoFireData _ _ _ _ _ _ _ _ _) as [[[|f fires]|err] h1];
    try exact Hwf.
  pose proof (saveFireData_wellFormed rejects toTimestamp (f :: fires)
                "ALL_SOURCES" d Hwf) as Hs.
  destruct (saveFireData rejects toTimestamp (f :: fires) "ALL_SOURCES" d)
    as [[n|err] d1]; exact Hs.
Qed.

Lemma populated_wellFormed d : populated' d -> wellFormed d.
Proof.
  induction 1 as [|d a b h _ IH].
  - unfold wellFormed, idsFromSequences, referencesResolve, keysUnique; simpl.
    repeat split; constructor.
  - now apply runPipeline_wellFormed.
Qed.

(** In a store built by the pipeline no two Fire Incidents share the
    (location, satellite, acquisition date) key, no two Fire Locations
    the coordinate pair, no two satellite rows the (source, satellite,
    instrument) triple. *)
Theorem populated_keys_unique d : populated' d -> keysUnique d.
Proof. intros H. now apply populated_wellFormed in H as (_ & _ & H). Qed.

(** In a store built by the pipeline every Fire Incident refers to a
    stored Fire Location and a stored satellite row, and within a table
    no id is given twice. *)
Theorem populated_references_resolve d :
  populated' d -> referencesResolve d /\ idsFromSequences d.
Proof. intros H. now apply populated_wellFormed in H as (H1 & H2 & _). Qed.

(** A run of the pipeline only appends to the three tables. *)
Theorem runPipeline_append_only startDate endDate h d :
  grows d (snd (runPipeline' startDate endDate h d)).
Proof.
  unfold runPipeline.
  destruct (getMaranhaoFireData _ _ _ _ _ _ _ _ _) as [[[|f fires]|err] h1];
    try apply grows_refl.
  pose proof (saveFireData_append_only rejects toTimestamp (f :: fires)
                "ALL_SOURCES" d) as Hs.
  destruct (saveFireData rejects toTimestamp (f :: fires) "ALL_SOURCES" d)
    as [[n|err] d1]; exact Hs.
Qed.

End StoreOfThePipeline.

(* ------------------------------------------------------------------ *)
(** ** Persister: one detection, one batch *)
(* ------------------------------------------------------------------ *)

Section PersisterMore.

Variable rejects : stmt -> bool.
Variable toTimestamp : dateprop -> option Z.

Local Abbreviation processFire' := (processFire rejects toTimestamp).
Local Abbreviation saveLoop' := (saveLoop rejects toTimestamp).
Local Abbreviation saveFireData' := (saveFireData rejects toTimestamp).

(** First write wins: for a detection whose coordinates are stored, the
    loop body leaves the Fire Locations as they are -- the municipality
    and state the detection carries are not written -- and an incident it
    adds refers to the stored location. *)
Theorem processFire_reuses_location sat f d l :
  locationOf f d = Some l ->
  fire_locations (processFire' sat f d) = fire_locations d /\
  (fire_incidents (processFire' sat f d) = fire_incidents d \/
   exists row,
     fire_incidents (processFire' sat f d) = (fire_incidents d ++ [row])%list /\
     inc_location_id row = l /\ inc_satellite_id row = sat).
Proof.
  intros Hl. unfold processFire, ensureLocation, selectLocation.
  destruct (rejects (SelectLocation _ _)); [now auto|].
  unfold locationOf in Hl.
  destruct (map loc_id _) as [|l0 rest]; [discriminate|].
  injection Hl as ->.
  unfold selectIncident.
  destruct (rejects (SelectIncident _ _ _)); [now auto|].
  destruct (toTimestamp (acquisition_date f)) as [ts|] eqn:Hts; [|now auto].
  destruct (map inc_id _) as [|x xs]; [|now auto].
  unfold insertIncident. rewrite Hts.
  destruct (rejects (InsertIncident _ _ _)); [now auto|].
  destruct (existsb _ _); simpl; [now auto|].
  split; [reflexivity|]. right. eexists. split; [reflexivity|]. now split.
Qed.

(** The incidents never change for a detection whose date the server
    reads no timestamp from. *)
Lemma processFire_unreadable_incidents sat f d :
  toTimestamp (acquisition_date f) = None ->
  fire_incidents (processFire' sat f d) = fire_incidents d.
Proof.
  intros Hts. unfold processFire.
  pose proof (ensureLocation_effect rejects f d) as (Hi & _ & _).
  destruct (ensureLocation rejects f d) as [[l|err] d1]; simpl in Hi;
    [|exact Hi].
  unfold selectIncident. rewrite Hts.
  destruct (rejects _); exact Hi.
Qed.

Hypothesis accepted : forall st, rejects st = false.

(** No transaction spans the loop body: for a detection at coordinates
    not yet stored, whose date the server reads no timestamp from, the
    location row is written and stays, with no incident to refer to
    it. *)
Theorem processFire_unreadable_date_leaves_location sat f d :
  toTimestamp (acquisition_date f) = None ->
  locationOf f d = None ->
  fire_incidents (processFire' sat f d) = fire_incidents d /\
  exists st muni,
    fire_locations (processFire' sat f d)
    = (fire_locations d
       ++ [mkLocation (seq_location d + 1) (latitude f) (longitude f) st muni])%list.
Proof.
  intros Hts Hl.
  split; [now apply processFire_unreadable_incidents|].
  unfold processFire, ensureLocation, selectLocation, insertLocation.
  rewrite !accepted.
  unfold locationOf in Hl.
  destruct (filter (sameCoordinates (latitude f) (longitude f)) (fire_locations d))
    as [|r rows] eqn:Hf; [|discriminate].
  simpl. rewrite (existsb_filter_empty _ _ Hf). simpl.
  unfold selectIncident. rewrite Hts, accepted. simpl. now eauto.
Qed.

(** With a label not used before and a server that accepts every
    statement, [saveFireData] returns the size of the batch, the row of
    the label is stored, and the key of every detection of the batch
    whose date the server reads is stored under the id of that row. *)
Theorem saveFireData_stores_every_key fires src d :
  existsb (sameSatellite src src src) (satellite_data d) = false ->
  let out := saveFireData' fires src d in
  fst out = Ok (Z.of_nat (List.length fires)) /\
  In (mkSatellite (seq_satellite d + 1) src src src) (satellite_data (snd out)) /\
  forall f ts,
    In f fires ->
    toTimestamp (acquisition_date f) = Some ts ->
    keyStored toTimestamp (seq_satellite d + 1) f (snd out).
Proof.
  intros Hfresh. unfold saveFireData, upsertSatellite.
  rewrite accepted, Hfresh. cbn [fst snd].
  split; [reflexivity|]. split.
  - rewrite saveLoop_satellite_data. simpl.
    rewrite in_app_iff. right. now left.
  - intros f ts Hin Hts.
    destruct (saveLoop_settles rejects toTimestamp accepted
                (seq_satellite d + 1) fires
                (mkDb (satellite_data d
                       ++ [mkSatellite (seq_satellite d + 1) src src src])
                      (fire_locations d) (fire_incidents d)
                      (seq_satellite d + 1) (seq_location d) (seq_incident d))
                f Hin) as (l & Hl & Hinc).
    rewrite Hts in Hinc. exists l, ts. now repeat split.
Qed.

End PersisterMore.

(* ------------------------------------------------------------------ *)
(** ** The read query *)
(* ------------------------------------------------------------------ *)

Lemma insertByDate_perm r l : Permutation (insertByDate r l) (r :: l).
Proof.
  induction l as [|x l IH]; simpl; [reflexivity|].
  destruct (_ <=? _); [reflexivity|].
  rewrite IH. apply perm_swap.
Qed.

Lemma orderByDateDesc_perm l : Permutation (orderByDateDesc l) l.
Proof.
  unfold orderByDateDesc.
  induction l as [|r l IH]; simpl; [reflexivity|].
  rewrite insertByDate_perm. now constructor.
Qed.

Lemma insertByDate_sorted r l :
  newestFirst l -> newestFirst (insertByDate r l).
Proof.
  unfold newestFirst.
  induction 1 as [|x l Hl IH Hx]; simpl.
  - repeat constructor.
  - destruct (inc_acquisition_date (row_incident x)
              <=? inc_acquisition_date (row_incident r)) eqn:Hle.
    + apply Z.leb_le in Hle.
      constructor; [now constructor|].
      constructor; [exact Hle|].
      revert Hx. apply Forall_impl. intros y Hy. unfold dateOf in *. lia.
    + apply Z.leb_gt in Hle.
      constructor; [exact IH|].
      assert (Hperm := insertByDate_perm r l).
      apply (Permutation_Forall (Permutation_sym Hperm)).
      constructor; [unfold dateOf; lia | exact Hx].
Qed.

Lemma orderByDateDesc_sorted l : newestFirst (orderByDateDesc l).
Proof.
  unfold orderByDateDesc.
  induction l as [|r l IH]; simpl; [constructor|].
  now apply insertByDate_sorted.
Qed.

Lemma joinedRows_stored d r : In r (joinedRows d) -> joinsStored d r.
Proof.
  unfold joinedRows, joinIncident. intros H.
  apply in_flat_map in H as (i & Hi & H).
  apply in_flat_map in H as (l & Hl & H).
  apply in_map_iff in H as (sd & <- & Hsd).
  apply filter_In in Hl as [Hl Hlid].
  apply filter_In in Hsd as [Hsd Hsid].
  unfold joinsStored; simpl.
  repeat split; try assumption; now apply Z.eqb_eq.
Qed.

Section ReadQueryFacts.

Variable toTimestamp : dateprop -> option Z.
Variable ilike : string -> string -> bool.
Variable toISOString : Z -> string.

Local Abbreviation getFiresFromDatabase' :=
  (getFiresFromDatabase toTimestamp ilike toISOString).
Local Abbreviation orCurrentDate' := (orCurrentDate toISOString).

(** What [getFiresFromDatabase] returns is sorted by acquisition date,
    newest first, and each row joins a stored incident with its stored
    location and satellite row, lies in state MA, is dated between the
    two bounds the server read, and matches the municipality pattern when
    one was given. *)
Theorem getFiresFromDatabase_sound startDate endDate municipality now d rows :
  getFiresFromDatabase' startDate endDate municipality now d = Ok rows ->
  exists a b,
    toTimestamp (orCurrentDate' now startDate) = Some a /\
    toTimestamp (orCurrentDate' now endDate) = Some b /\
    newestFirst rows /\
    forall r, In r rows ->
      joinsStored d r /\
      loc_state (row_location r) = "MA" /\
      a <= dateOf r <= b /\
      (truthy municipality = true ->
       ilike (loc_municipality (row_location r)) (toString municipality) = true).
Proof.
  unfold getFiresFromDatabase.
  destruct (toTimestamp (orCurrentDate' now startDate)) as [a|]; [|discriminate].
  destruct (toTimestamp (orCurrentDate' now endDate)) as [b|]; [|discriminate].
  intros H; injection H as <-.
  exists a, b.
  split; [reflexivity|]. split; [reflexivity|].
  split; [apply orderByDateDesc_sorted|].
  intros r H.
  apply (Permutation_in _ (orderByDateDesc_perm _)) in H.
  apply filter_In in H as [Hj H]. unfold selected in H.
  apply andb_true_iff in H as [H Hm].
  apply andb_true_iff in H as [H Hb].
  apply andb_true_iff in H as [Hs Ha].
  split; [now apply joinedRows_stored|].
  split; [now apply String.eqb_eq|].
  split; [unfold dateOf; split; now apply Z.leb_le|].
  intros Ht. now rewrite Ht in Hm.
Qed.

End ReadQueryFacts.

Lemma filter_unique_id {A : Type} (g : A -> Z) (l : list A) (x : A) :
  NoDup (map g l) -> In x l -> filter (fun y => g y =? g x) l = [x].
Proof.
  induction l as [|y l IH]; intros Hnd Hin; [contradiction|].
  simpl in Hnd. inversion Hnd as [|? ? Hy Hl]; subst.
  simpl. destruct Hin as [-> | Hin].
  - rewrite Z.eqb_refl. f_equal.
    assert (Hnone : forall z, In z l -> (g z =? g x) = false).
    { intros z Hz. apply Z.eqb_neq. intros Heq.
      apply Hy. rewrite <- Heq. now apply in_map. }
    clear - Hnone. induction l as [|z l IH]; [reflexivity|].
    simpl. rewrite (Hnone z) by now left.
    apply IH. intros w Hw. apply Hnone. now right.
  - assert (Hne : (g y =? g x) = false).
    { apply Z.eqb_neq. intros Heq. apply Hy. rewrite Heq. now apply in_map. }
    rewrite Hne. now apply IH.
Qed.

Lemma joinIncident_single d i :
  wellFormed d -> In i (fire_incidents d) ->
  exists l sd,
    joinIncident d i = [mkJoined i l sd] /\
    In l (fire_locations d) /\ In sd (satellite_data d).
Proof.
  intros ((_ & _ & _ & Ns & Nl & _) & Href & _) Hi.
  unfold referencesResolve in Href. rewrite Forall_forall in Href.
  destruct (Href i Hi) as [Hl Hs].
  apply in_map_iff in Hl as (l & Hlid & Hl).
  apply in_map_iff in Hs as (sd & Hsid & Hs).
  exists l, sd. split; [|now split].
  unfold joinIncident. rewrite <- Hlid, <- Hsid.
  rewrite (filter_unique_id loc_id _ l Nl Hl).
  rewrite (filter_unique_id sat_id _ sd Ns Hs).
  reflexivity.
Qed.

Section ReadQueryComplete.

Variable toTimestamp : dateprop -> option Z.
Variable ilike : string -> string -> bool.
Variable toISOString : Z -> string.

Local Abbreviation getFiresFromDatabase' :=
  (getFiresFromDatabase toTimestamp ilike toISOString).
Local Abbreviation orCurrentDate' := (orCurrentDate toISOString).

Lemma selected_incidents (J : incident_row -> list joined_row) a b municipality :
  truthy municipality = false ->
  forall incs,
    (forall i, In i incs ->
       exists l sd, J i = [mkJoined i l sd] /\ loc_state l = "MA") ->
    map row_incident (filter (selected ilike a b municipality) (flat_map J incs))
    = filter (datedBetween a b) incs.
Proof.
  intros Hm.
  induction incs as [|i incs IH]; intros HJ; [reflexivity|].
  destruct (HJ i (or_introl eq_refl)) as (l & sd & Hi & Hst).
  simpl. rewrite Hi. simpl.
  unfold selected at 1. simpl. rewrite Hst, Hm. simpl.
  rewrite andb_true_r.
  change ((a <=? inc_acquisition_date i) && (inc_acquisition_date i <=? b))
    with (datedBetween a b i).
  destruct (datedBetween a b i); simpl; rewrite IH; auto;
    intros j Hj; apply HJ; now right.
Qed.

(** With no municipality given, on a well-formed store whose locations
    all lie in state MA, the query returns each stored incident dated
    between the two bounds exactly once, and no other. *)
Theorem getFiresFromDatabase_complete startDate endDate municipality now d a b :
  wellFormed d -> locationsInMA d ->
  truthy municipality = false ->
  toTimestamp (orCurrentDate' now startDate) = Some a ->
  toTimestamp (orCurrentDate' now endDate) = Some b ->
  exists rows,
    getFiresFromDatabase' startDate endDate municipality now d = Ok rows /\
    Permutation (map row_incident rows)
                (filter (datedBetween a b) (fire_incidents d)).
Proof.
  intros Hwf Hma Hm Ha Hb.
  unfold getFiresFromDatabase. rewrite Ha, Hb.
  eexists. split; [reflexivity|].
  rewrite (Permutation_map row_incident (orderByDateDesc_perm _)).
  unfold joinedRows. rewrite selected_incidents; [reflexivity | exact Hm |].
  intros i Hi.
  destruct (joinIncident_single d i Hwf Hi) as (l & sd & Hj & Hl & _).
  exists l, sd. split; [exact Hj|].
  unfold locationsInMA in Hma. rewrite Forall_forall in Hma. now apply Hma.
Qed.

End ReadQueryComplete.

(* ------------------------------------------------------------------ *)
(** ** From the pipeline to the read query *)
(* ------------------------------------------------------------------ *)

Section PipelineToQuery.

Variable cities : list city.
Variable toLowerCase : string -> string.
Variable nominatim : history -> jsnum -> jsnum -> geo_outcome.
Variable firms : history -> request -> fetch_outcome.
Variable parseDate : string -> option Z.
Variable StringToNumber : string -> jsnum.
Variable rejects : stmt -> bool.
Variable toTimestamp : dateprop -> option Z.
Variable ilike : string -> string -> bool.
Variable toISOString : Z -> string.

Local Abbreviation populated' :=
  (populated cities toLowerCase nominatim firms parseDate StringToNumber
     rejects toTimestamp).

(** The location the loop body may add carries the state of the
    detection, MA when it has none. *)
Lemma processFire_location_row sat f d :
  fire_locations (processFire rejects toTimestamp sat f d) = fire_locations d \/
  fire_locations (processFire rejects toTimestamp sat f d)
  = (fire_locations d
     ++ [mkLocation (seq_location d + 1) (latitude f) (longitude f)
           (if String.eqb (state f) "" then "MA" else state f)
           (if String.eqb (municipality f) "" then "Unknown"
            else municipality f)])%list.
Proof.
  unfold processFire.
  assert (Hloc : fire_locations (snd (ensureLocation rejects f d)) = fire_locations d \/
                 fire_locations (snd (ensureLocation rejects f d))
                 = (fire_locations d
                    ++ [mkLocation (seq_location d + 1) (latitude f) (longitude f)
                          (if String.eqb (state f) "" then "MA" else state f)
                          (if String.eqb (municipality f) "" then "Unknown"
                           else municipality f)])%list).
  { unfold ensureLocation, selectLocation, insertLocation.
    destruct (rejects (SelectLocation _ _)); simpl; [now left|].
    destruct (map _ _); simpl; [|now left].
    destruct (rejects (InsertLocation _ _ _ _)); simpl; [now left|].
    destruct (existsb _ _); simpl; [now left | now right]. }
  destruct (ensureLocation rejects f d) as [[l|err] d1]; simpl in Hloc;
    [|exact Hloc].
  destruct (selectIncident _ _ _ _ _ _) as [[|x xs]|err]; try exact Hloc.
  pose proof (insertIncident_effect rejects toTimestamp l sat f d1) as (Hl & _).
  simpl in Hl. now rewrite Hl.
Qed.

Lemma saveLoop_locationsInMA sat fires :
  Forall (fun f => state f = "MA") fires ->
  forall d, locationsInMA d ->
            locationsInMA (saveLoop rejects toTimestamp sat fires d).
Proof.
  unfold saveLoop.
  induction 1 as [|f fires Hf _ IH]; intros d Hd; simpl; [exact Hd|].
  apply IH. unfold locationsInMA.
  destruct (processFire_location_row sat f d) as [-> | ->]; [exact Hd|].
  apply Forall_app. split; [exact Hd|].
  constructor; [|constructor]. simpl. now rewrite Hf.
Qed.

Lemma populated_locationsInMA d : populated' d -> locationsInMA d.
Proof.
  induction 1 as [|d a b h _ IH]; [constructor|].
  unfold runPipeline.
  destruct (getMaranhaoFireData _ _ _ _ _ _ _ _ _) as [[fires|err] h1] eqn:Hget;
    [|exact IH].
  destruct fires as [|f fires]; [exact IH|].
  apply getMaranhaoFireData_canonical in Hget.
  assert (Hst : Forall (fun f0 => state f0 = "MA") (f :: fires)).
  { revert Hget. apply Forall_impl. intros f0 Hc. apply Hc. }
  unfold saveFireData.
  pose proof (upsertSatellite_tables rejects "ALL_SOURCES" "ALL_SOURCES"
                "ALL_SOURCES" d) as [Hl _].
  destruct (upsertSatellite rejects _ _ _ d) as [[[|sat rows]|err] d1];
    cbn [fst snd] in *; unfold locationsInMA; try (rewrite Hl; exact IH).
  apply saveLoop_locationsInMA; [exact Hst|].
  unfold locationsInMA. rewrite Hl. exact IH.
Qed.

(** What the pipeline stored is what the query finds: over a store built
    by the pipeline, with no municipality given and two dates the server
    reads, [getFiresFromDatabase] returns every stored incident dated
    between them, each once, newest first. *)
Theorem populated_query_returns_stored_incidents d startDate endDate now a b :
  populated' d ->
  toTimestamp (orCurrentDate toISOString now startDate) = Some a ->
  toTimestamp (orCurrentDate toISOString now endDate) = Some b ->
  exists rows,
    getFiresFromDatabase toTimestamp ilike toISOString startDate endDate Null
      now d = Ok rows /\
    newestFirst rows /\
    Permutation (map row_incident rows)
                (filter (datedBetween a b) (fire_incidents d)).
Proof.
  intros Hpop Ha Hb.
  destruct (getFiresFromDatabase_complete toTimestamp ilike toISOString
              startDate endDate Null now d a b) as (rows & Hrows & Hperm);
    try assumption; try reflexivity.
  - now apply (populated_wellFormed cities toLowerCase nominatim firms parseDate
                 StringToNumber rejects toTimestamp).
  - now apply populated_locationsInMA.
  - exists rows. split; [exact Hrows|]. split; [|exact Hperm].
    destruct (getFiresFromDatabase_sound toTimestamp ilike toISOString
                startDate endDate Null now d rows Hrows)
      as (a' & b' & _ & _ & Hsorted & _).
    exact Hsorted.
Qed.

End PipelineToQuery.

(* ------------------------------------------------------------------ *)
(** ** Severity and the map *)
(* ------------------------------------------------------------------ *)

Lemma gtb_threshold_mono (x y : jsnum) (c : Q) :
  gtb x (Fin c) = true -> leb x y = true -> gtb y (Fin c) = true.
Proof.
  unfold gtb, leb.
  destruct x as [| | |p]; destruct y as [| | |r]; simpl;
    try discriminate; try reflexivity.
  intros Hcp Hpr.
  apply Qltb_true_lt in Hcp. apply negb_true_iff, Qltb_false_le in Hpr.
  unfold Qltb. apply negb_true_iff.
  destruct (Qle_bool r c) eqn:E; [|reflexivity].
  apply Qle_bool_iff in E. exfalso.
  apply (Qlt_irrefl c).
  eapply Qlt_le_trans; [exact Hcp|]. eapply Qle_trans; eassumption.
Qed.

(** Severity grows with the measurements: a detection with at least the
    fire radiative power and at least the confidence of another is rated
    at least as severe. *)
Theorem calculateSeverity_monotone (f g : fire) :
  leb (frp f) (frp g) = true ->
  leb (confidence f) (confidence g) = true ->
  severityRank (calculateSeverity f) <= severityRank (calculateSeverity g).
Proof.
  intros Hfrp Hconf. unfold calculateSeverity.
  pose proof (fun c => gtb_threshold_mono (frp f) (frp g) c) as Hf.
  pose proof (fun c => gtb_threshold_mono (confidence f) (confidence g) c) as Hc.
  destruct (gtb (frp f) (Fin (inject_Z 100))) eqn:F1;
    destruct (gtb (confidence f) (Fin (inject_Z 80))) eqn:C1;
    destruct (gtb (frp f) (Fin (inject_Z 50))) eqn:F2;
    destruct (gtb (confidence f) (Fin (inject_Z 70))) eqn:C2;
    destruct (gtb (frp f) (Fin (inject_Z 20))) eqn:F3;
    destruct (gtb (confidence f) (Fin (inject_Z 60))) eqn:C3;
    repeat match goal with
           | H : gtb (frp f) (Fin ?c) = true |- _ =>
               rewrite (Hf c H Hfrp); clear H
           | H : gtb (confidence f) (Fin ?c) = true |- _ =>
               rewrite (Hc c H Hconf); clear H
           end;
    simpl;
    repeat match goal with
           | |- context [if ?b then _ else _] => destruct b; simpl
           end;
    lia.
Qed.

Lemma calculateSeverity_monotone_witness :
  severityRank (calculateSeverity Sample.goodFire)
  <= severityRank (calculateSeverity Sample.laterFire).
Proof.
  apply calculateSeverity_monotone; reflexivity.
Defined.

Section SeverityOfRows.

Variable cities : list city.
Variable toLowerCase : string -> string.
Variable nominatim : history -> jsnum -> jsnum -> geo_outcome.
Variable parseDate : string -> option Z.
Variable StringToNumber : string -> jsnum.

(** A detection whose confidence text is no number -- the letters of the
    VIIRS products, an empty cell, a missing column -- carries confidence
    0: whatever its fire radiative power, it is rated low and drawn
    yellow. *)
Theorem unparseable_confidence_is_low src headers s e line h f h' :
  processRow cities toLowerCase nominatim parseDate StringToNumber
    src headers s e line h = (Emit f, h') ->
  parseInt (toString (getProp "confidence" (buildRow headers (split "," line))))
    = NaN ->
  confidence f = Fin 0%Q /\
  calculateSeverity f = Low /\
  markerColor (confidence f) = Yellow.
Proof.
  intros Hrow Hconf.
  apply processRow_emit_inv in Hrow as (_ & _ & _ & _ & info & _ & ->).
  unfold calculateSeverity; simpl.
  rewrite (safeParseInt_default _ Hconf).
  split; [reflexivity|]. split; [|reflexivity].
  change (gtb (Fin 0%Q) (Fin (inject_Z 80))) with false.
  change (gtb (Fin 0%Q) (Fin (inject_Z 70))) with false.
  change (gtb (Fin 0%Q) (Fin (inject_Z 60))) with false.
  rewrite !andb_false_r. reflexivity.
Qed.

End SeverityOfRows.

Lemma unparseable_confidence_witness :
  confidence Sample.goodFire = Fin 0%Q /\
  calculateSeverity Sample.goodFire = Low /\
  markerColor (confidence Sample.goodFire) = Yellow.
Proof.
  apply (unparseable_confidence_is_low Sample.cities Sample.lowerAscii
           Sample.nominatimDown Sample.parseIsoDate Sample.noNumber
           Cases.viirs (split "," Sample.csvHeader) Sample.jan01 Sample.jan08
           Sample.goodRow [] Sample.goodFire
           [EvNominatim (Fin (Qmake (-50) 10)) (Fin (Qmake (-450) 10))]).
  - vm_compute. reflexivity.
  - vm_compute. reflexivity.
Defined.

(** The filter of the map agrees with the bounds test of the service on
    every pair of numbers, and differs on NaN, which the service does not
    count as outside and the map does not show. *)
Theorem shownOnMap_agrees_with_bounds (lat lon : jsnum) :
  shownOnMap lat lon
  = negb (isNaN lat || isNaN lon) && negb (outOfBounds lat lon).
Proof.
  unfold shownOnMap, outOfBounds, geb, leb, gtb. simpl.
  destruct lat as [| | |p]; destruct lon as [| | |q]; simpl;
    try reflexivity;
    repeat match goal with
           | |- context [Qltb ?a ?b] => destruct (Qltb a b); simpl
           end;
    reflexivity.
Qed.

Lemma shownOnMap_within (lat lon : jsnum) :
  withinBounds lat lon -> shownOnMap lat lon = true.
Proof.
  intros Hw. rewrite shownOnMap_agrees_with_bounds.
  rewrite (within_not_outOfBounds _ _ Hw).
  destruct lat; try contradiction; destruct lon; try contradiction.
  reflexivity.
Qed.

(** The map hides nothing the pipeline stored: every Fire Location of a
    store built by the pipeline passes the filter of the map. *)
Theorem populated_locations_shown cities toLowerCase nominatim firms parseDate
    StringToNumber rejects toTimestamp d :
  populated cities toLowerCase nominatim firms parseDate StringToNumber
            rejects toTimestamp d ->
  Forall (fun r => shownOnMap (loc_latitude r) (loc_longitude r) = true)
         (fire_locations d).
Proof.
  intros Hpop.
  assert (Hd : locationsWithin d).
  { induction Hpop as [|d0 a b h0 _ IH]; [constructor|].
    now apply runPipeline_within. }
  revert Hd. apply Forall_impl. intros r. apply shownOnMap_within.
Qed.

(* ------------------------------------------------------------------ *)
(** ** The city-coordinates lookup *)
(* ------------------------------------------------------------------ *)

Lemma mapGet_mapSet {V : Type} (k k' : string) (v : V) (m : list (string * V)) :
  mapGet k (mapSet k' v m) = if String.eqb k' k then Some v else mapGet k m.
Proof.
  induction m as [|[k0 v0] m IH]; simpl.
  - reflexivity.
  - destruct (String.eqb k0 k') eqn:E0; simpl.
    + apply String.eqb_eq in E0. subst k0.
      destruct (String.eqb k' k); reflexivity.
    + destruct (String.eqb k0 k) eqn:E1.
      * apply String.eqb_eq in E1. subst k0.
        rewrite String.eqb_sym in E0. now rewrite E0.
      * exact IH.
Qed.

Lemma find_rev_none {A : Type} (p : A -> bool) (l : list A) :
  find p (rev l) = None <-> find p l = None.
Proof.
  split; intros H; apply find_all_false; intros x Hx.
  - apply (find_none _ _ H). now apply in_rev in Hx.
  - apply (find_none _ _ H). now apply in_rev.
Qed.

Section CityCoordinatesFacts.

Variable cities : list city.
Variable toLowerCase : string -> string.

Local Abbreviation cityCoordinatesOf' := (cityCoordinatesOf cities toLowerCase).
Local Abbreviation findCity' := (findCity cities toLowerCase).

Lemma mapGet_cityCoordinates (k : string) (cs : list city) :
  mapGet k (fold_left
              (fun m c => mapSet (toLowerCase (city_name c))
                                 (city_latitude c, city_longitude c) m)
              cs [])
  = option_map (fun c => (city_latitude c, city_longitude c))
      (find (fun c => String.eqb (toLowerCase (city_name c)) k) (rev cs)).
Proof.
  induction cs as [|c cs IH] using rev_ind; [reflexivity|].
  rewrite fold_left_app, rev_app_distr. simpl.
  rewrite mapGet_mapSet.
  destruct (String.eqb (toLowerCase (city_name c)) k); [reflexivity | exact IH].
Qed.

(** The lookup answers with the coordinates of the last city of the
    index whose lower-cased name is the lower-cased name asked for, and
    with 404 exactly when [cities.find] -- the lookup of
    [getWeatherForCity] -- finds no city; every city of the index is
    found under its own name. *)
Theorem cityCoordinatesOf_spec (cityName : string) :
  cityCoordinatesOf' cityName
  = option_map (fun c => (city_latitude c, city_longitude c))
      (find (fun c => String.eqb (toLowerCase (city_name c))
                                 (toLowerCase cityName))
            (rev cities)) /\
  (cityCoordinatesOf' cityName = None <-> findCity' cityName = None) /\
  (forall c, In c cities -> cityCoordinatesOf' (city_name c) <> None).
Proof.
  assert (Hspec : forall n,
             cityCoordinatesOf' n
             = option_map (fun c => (city_latitude c, city_longitude c))
                 (find (fun c => String.eqb (toLowerCase (city_name c))
                                            (toLowerCase n))
                       (rev cities))).
  { intros n. apply mapGet_cityCoordinates. }
  split; [apply Hspec|]. split.
  - rewrite Hspec. unfold findCity.
    rewrite <- (find_rev_none _ cities).
    destruct (find _ (rev cities)); simpl; split; congruence.
  - intros c Hc. rewrite Hspec.
    destruct (find _ (rev cities)) eqn:Hf; [discriminate|].
    apply in_rev in Hc.
    pose proof (find_none _ _ Hf c Hc) as Hno. simpl in Hno.
    now rewrite String.eqb_refl in Hno.
Qed.

End CityCoordinatesFacts.

Example cityCoordinatesOf_sample :
  cityCoordinatesOf Sample.cities Sample.lowerAscii "CAXIAS"
  = Some (Qmake (-4865) 1000, Qmake (-43362) 1000).
Proof. vm_compute. reflexivity. Qed.
